(** * Pelosi-Tracker: the order manager [execute_orders.py]

    A shallow embedding of the rebalancing core of the script
    (symbol normalisation, position aggregation, target calculation, the
    order diff engine and the sell-before-buy sequencing of [main]) and the
    properties stated about it.

    Numbers.  Python floats are modelled by exact rationals [Q]: sums,
    products, quotients and comparisons are exact, and [round(x, n)] is
    rounding to the nearest multiple of [10^-n], ties to even (what the
    built-in does on the exact value of its argument).  NaN, infinities and
    binary representation error are outside the model.

    Containers.  Python dicts keyed by symbol are [gmap string _]; the
    allocation dict, whose iteration order matters, is an association list;
    the set of all symbols is a [gset string] and the loop over it runs over
    an enumeration without repetitions.

    Effects.  The environment is a [gmap string string]; the broker is a
    record of state-passing calls on a state of the world, a raised
    exception being a [None] or [false] result; [main] threads that state
    through its calls and ends with an [Exit].  Wrapping a broker so that
    it writes each call to a log gives the trace of a run.  Reading the
    allocation file and logging are not modelled: [main] takes the loaded
    file, or its failure, as an argument. *)

From Stdlib Require Import QArith Qabs ZArith Lia Lqa Ascii String.
From stdpp Require Import gmap strings list fin_maps.

(** ** Rationals as floats *)

Definition Qltb (x y : Q) : bool :=
  match (x ?= y)%Q with Lt => true | _ => false end.

(** Nearest integer, ties to even, of the rational [n / d]. *)
Definition round_half_even (x : Q) : Z :=
  let n := Qnum x in
  let d := Zpos (Qden x) in
  let f := (n / d)%Z in
  let r := (n mod d)%Z in
  match (2 * r ?= d)%Z with
  | Lt => f
  | Gt => (f + 1)%Z
  | Eq => if Z.even f then f else (f + 1)%Z
  end.

Definition pow10 (ndigits : nat) : positive :=
  Nat.iter ndigits (Pos.mul 10) 1%positive.

(** [round(x, ndigits)] of Python, for [ndigits >= 0]. *)
Definition round (x : Q) (ndigits : nat) : Q :=
  Qmake (round_half_even (x * inject_Z (Zpos (pow10 ndigits)))) (pow10 ndigits).

(** [min(a, b)] of Python: the first argument unless the second is smaller. *)
Definition py_min (a b : Q) : Q := if Qltb b a then b else a.

(** ** Configuration tables *)

Definition CRYPTO_TICKER_MAPPING : gmap string string :=
  list_to_map [("BTC-USD", "BTC/USD"); ("SOL-USD", "SOL/USD")]%string.

Definition CRYPTO_SYMBOLS : gset string :=
  list_to_set ["BTC/USD"; "BTCUSD"; "BTC-USD"; "SOL/USD"; "SOLUSD"; "SOL-USD"]%string.

Definition SYMBOL_NORMALIZATION : gmap string string :=
  list_to_map [("BTCUSD", "BTC/USD"); ("BTC-USD", "BTC/USD");
               ("SOLUSD", "SOL/USD"); ("SOL-USD", "SOL/USD")]%string.

(** ** normalize_symbol *)

(** [str.upper()] on ASCII text: the letters [a]..[z] are raised, every other
    byte is kept. *)
Definition upper_ascii (c : ascii) : ascii :=
  let n := nat_of_ascii c in
  if (97 <=? n)%nat && (n <=? 122)%nat then ascii_of_nat (n - 32) else c.

Fixpoint upper (s : string) : string :=
  match s with
  | EmptyString => EmptyString
  | String c rest => String (upper_ascii c) (upper rest)
  end.

Definition normalize_symbol (symbol : string) : string :=
  default symbol (SYMBOL_NORMALIZATION !! upper symbol).

(** ** Data model *)

(** A position as the broker reports it.  [market_value] and [qty] hold the
    result of [float(...)] on the reported field, [None] when the conversion
    raises. *)
Module Position.
Record t := mk { symbol : string; market_value : option Q; qty : option Q }.
End Position.

(** The inner dict of a current position, [{'value': ..., 'qty': ...}];
    [calculate_orders] reads both keys with [.get(key, 0.0)], so either may
    be missing. *)
Module PositionData.
Record t := mk { value : option Q; qty : option Q }.
End PositionData.

Inductive Side := buy | sell.

#[global] Instance Side_eq_dec : EqDecision Side.
Proof. solve_decision. Defined.

(** An order dict: ['symbol'] and ['side'] are always present, the keys
    ['qty'], ['notional'] and ['current_position_value'] only when set. *)
Module Order.
Record t := mk {
  symbol : string;
  side : Side;
  qty : option Q;
  notional : option Q;
  current_position_value : option Q
}.
End Order.

(** ** get_current_positions *)

(** One pass of the loop body.  [None] stands for a raised exception: a
    failed [float(...)], or a missing key in an entry being updated. *)
Definition add_position (normalized_positions : gmap string PositionData.t)
    (pos : Position.t) : option (gmap string PositionData.t) :=
  let normalized_symbol := normalize_symbol (Position.symbol pos) in
  market_value ← Position.market_value pos;
  qty ← Position.qty pos;
  match normalized_positions !! normalized_symbol with
  | Some entry =>
      value' ← PositionData.value entry;
      qty' ← PositionData.qty entry;
      Some (<[normalized_symbol :=
                PositionData.mk (Some (value' + market_value)%Q)
                                (Some (qty' + qty)%Q)]> normalized_positions)
  | None =>
      Some (<[normalized_symbol :=
                PositionData.mk (Some market_value) (Some qty)]>
              normalized_positions)
  end.

Fixpoint aggregate (positions : list Position.t)
    (normalized_positions : gmap string PositionData.t)
    : option (gmap string PositionData.t) :=
  match positions with
  | [] => Some normalized_positions
  | pos :: rest =>
      normalized_positions' ← add_position normalized_positions pos;
      aggregate rest normalized_positions'
  end.

(** [positions] is what [client.get_all_positions()] returns, [None] when the
    call raises.  Any exception makes the function return the empty dict. *)
Definition get_current_positions (positions : option (list Position.t))
    : gmap string PositionData.t :=
  match positions with
  | Some positions => default ∅ (aggregate positions ∅)
  | None => ∅
  end.

(** ** calculate_target_positions *)

(** [allocations] is the allocation dict in its iteration order. *)
Definition calculate_target_positions (allocations : list (string * Q))
    (account_equity : Q) (crypto_mapping : option (gmap string string))
    : gmap string Q :=
  let crypto_mapping := default ∅ crypto_mapping in
  fold_left
    (fun targets '(asset, allocation_pct) =>
       let symbol := default asset (crypto_mapping !! asset) in
       let target_value := ((allocation_pct / 100) * account_equity)%Q in
       <[symbol := target_value]> targets)
    allocations ∅.

(** ** calculate_orders *)

Section calculate_orders.
Variable current_positions : gmap string PositionData.t.
Variable target_positions : gmap string Q.
Variable min_order_size : Q.

Local Open Scope Q_scope.

Definition current_value (symbol : string) : Q :=
  let position_data :=
    default (PositionData.mk (Some 0) (Some 0)) (current_positions !! symbol) in
  default 0 (PositionData.value position_data).

Definition current_qty (symbol : string) : Q :=
  let position_data :=
    default (PositionData.mk (Some 0) (Some 0)) (current_positions !! symbol) in
  default 0 (PositionData.qty position_data).

Definition symbol_in_target (symbol : string) : bool :=
  bool_decide (is_Some (target_positions !! symbol)).

Definition target_value (symbol : string) : Q :=
  default 0 (target_positions !! symbol).

Definition difference (symbol : string) : Q :=
  target_value symbol - current_value symbol.

Definition should_close_position (symbol : string) : bool :=
  (negb (symbol_in_target symbol) || Qeq_bool (target_value symbol) 0)
  && Qltb 0 (current_value symbol).

(** The dead-band test of line 227; [true] means [continue]. *)
Definition skipped (symbol : string) : bool :=
  negb (should_close_position symbol)
  && Qltb (Qabs (difference symbol)) min_order_size.

Definition notional_buy (symbol : string) : Order.t :=
  Order.mk symbol buy None (Some (round (difference symbol) 2)) None.

Definition buy_order (symbol : string) : Order.t :=
  if Qltb 0 (current_qty symbol) && Qltb 0 (current_value symbol) then
    let approx_price := current_value symbol / current_qty symbol in
    if Qltb 0 approx_price then
      let buy_qty := round (difference symbol / approx_price) 3 in
      if Qltb 0 buy_qty then Order.mk symbol buy (Some buy_qty) None None
      else notional_buy symbol
    else notional_buy symbol
  else notional_buy symbol.

Definition sell_qty (symbol : string) : Q :=
  if negb (symbol_in_target symbol) then round (current_qty symbol) 3
  else if Qeq_bool (target_value symbol) 0 then round (current_qty symbol) 3
  else if Qltb 0 (current_value symbol) then
    py_min (round (current_qty symbol
                * (current_value symbol - target_value symbol)
                / current_value symbol) 3)
           (current_qty symbol)
  else 0.

Definition sell_order (symbol : string) : option Order.t :=
  if Qltb 0 (sell_qty symbol) then
    Some (Order.mk symbol sell (Some (sell_qty symbol)) None
                   (Some (current_value symbol)))
  else None.

(** One pass of the loop body: the order appended for [symbol], if any. *)
Definition order_for (symbol : string) : option Order.t :=
  if skipped symbol then None
  else if Qltb 0 (difference symbol) then Some (buy_order symbol)
  else sell_order symbol.

(** The loop, run over a given enumeration of [all_symbols]. *)
Definition calculate_orders_on (all_symbols : list string) : list Order.t :=
  fold_left
    (fun orders symbol =>
       match order_for symbol with
       | Some o => orders ++ [o]
       | None => orders
       end)
    all_symbols [].

Definition all_symbols : gset string :=
  dom current_positions ∪ dom target_positions.

Definition calculate_orders : list Order.t :=
  calculate_orders_on (elements all_symbols).
End calculate_orders.


(** ** execute_order and the execution loop of main *)

Inductive TimeInForce := GTC | DAY.

Module MarketOrderRequest.
Record t := mk {
  symbol : string;
  side : Side;
  qty : option Q;
  notional : option Q;
  time_in_force : TimeInForce
}.
End MarketOrderRequest.

(** ['/' in symbol] *)
Fixpoint contains_slash (s : string) : bool :=
  match s with
  | EmptyString => false
  | String c rest => Ascii.eqb c "/"%char || contains_slash rest
  end.

Definition is_crypto (symbol : string) : bool :=
  contains_slash symbol || bool_decide (upper symbol ∈ CRYPTO_SYMBOLS).

Definition sell_orders (orders : list Order.t) : list Order.t :=
  filter (fun o => Order.side o = sell) orders.

Definition buy_orders (orders : list Order.t) : list Order.t :=
  filter (fun o => Order.side o = buy) orders.

Definition sorted_orders (orders : list Order.t) : list Order.t :=
  sell_orders orders ++ buy_orders orders.

Section broker.
(** The broker client is a state threaded through the calls;
    [submit_order] returns the new state and whether the call returned
    ([false]: it raised, which [execute_order] catches). *)
Variable TradingClient : Type.
Variable submit_order :
  TradingClient -> MarketOrderRequest.t -> TradingClient * bool.

Definition execute_order (client : TradingClient) (order_data : Order.t)
    : TradingClient * bool :=
  let symbol := Order.symbol order_data in
  let time_in_force := if is_crypto symbol then GTC else DAY in
  match Order.side order_data with
  | sell =>
      let qty := default 0%Q (Order.qty order_data) in
      if Qle_bool qty 0 then (client, false)
      else submit_order client
             (MarketOrderRequest.mk symbol sell (Some qty) None time_in_force)
  | buy =>
      let qty := default 0%Q (Order.qty order_data) in
      let notional := default 0%Q (Order.notional order_data) in
      if Qltb 0 qty then
        submit_order client
          (MarketOrderRequest.mk symbol buy (Some (round qty 3)) None
                                 time_in_force)
      else
        let notional := round notional 2 in
        if Qle_bool notional 0 then (client, false)
        else submit_order client
               (MarketOrderRequest.mk symbol buy None (Some notional)
                                      time_in_force)
  end.

(** The loop [for order in ...: if execute_order(...): success_count += 1]. *)
Definition execute_all (orders : list Order.t)
    (state : TradingClient * nat) : TradingClient * nat :=
  fold_left
    (fun '(client, success_count) order =>
       let '(client', ok) := execute_order client order in
       (client', if ok then S success_count else success_count))
    orders state.

(** The tail of [main], from the computed [orders] on: the final client
    state and [success_count]. *)
Definition run_orders (client : TradingClient) (orders : list Order.t)
    (dry_run : bool) : TradingClient * nat :=
  match orders with
  | [] => (client, 0%nat)
  | _ =>
      if dry_run then (client, 0%nat)
      else execute_all (sorted_orders orders) (client, 0%nat)
  end.
End broker.

(** [handed_over submit_order client orders (client', n)]: the orders of the
    list are handed to [execute_order] one after the other, in the order of
    the list and none skipped, each call starting from the client state the
    call before left; [client'] is the state after the last call and [n]
    the number of calls that returned [True]. *)
Inductive handed_over {TradingClient : Type}
    (submit_order : TradingClient -> MarketOrderRequest.t -> TradingClient * bool)
    : TradingClient -> list Order.t -> TradingClient * nat -> Prop :=
  | handed_over_nil client : handed_over submit_order client [] (client, 0%nat)
  | handed_over_cons client order client' ok orders client'' n :
      execute_order TradingClient submit_order client order = (client', ok) ->
      handed_over submit_order client' orders (client'', n) ->
      handed_over submit_order client (order :: orders)
        (client'', if ok then S n else n).

(** A broker that records every request it receives and accepts it. *)
Definition recording_submit (log : list MarketOrderRequest.t)
    (request : MarketOrderRequest.t) : list MarketOrderRequest.t * bool :=
  (log ++ [request], true).

(** ** Vocabulary of the properties *)

(** [q] is a multiple of [10^-n]: it has at most [n] decimal places. *)
Definition decimal_places_le (n : nat) (q : Q) : Prop :=
  exists z : Z, (q == z # pow10 n)%Q.

Definition Qsum (l : list Q) : Q := foldr Qplus 0%Q l.

(** The orders of a list that are about [s]. *)
Definition orders_of (s : string) (orders : list Order.t) : list Order.t :=
  filter (fun o => Order.symbol o = s) orders.

(** The symbol is being closed: dropped from or zeroed in the target while
    the current position has positive value. *)
Definition closing (cur : gmap string PositionData.t) (tgt : gmap string Q)
    (s : string) : Prop :=
  (tgt !! s = None \/ (target_value tgt s == 0)%Q)
  /\ (0 < current_value cur s)%Q.

(** Every entry of the dict carries both keys. *)
Definition complete (m : gmap string PositionData.t) : Prop :=
  forall s entry, m !! s = Some entry ->
    is_Some (PositionData.value entry) /\ is_Some (PositionData.qty entry).

(** Both numeric fields of the raw position went through [float(...)]. *)
Definition converted (pos : Position.t) : Prop :=
  is_Some (Position.market_value pos) /\ is_Some (Position.qty pos).

(** [crypto_mapping.get(asset, asset)], with the [None] default of the
    parameter replaced by the empty dict. *)
Definition mapped_symbol (crypto_mapping : option (gmap string string))
    (asset : string) : string :=
  default asset (default ∅ crypto_mapping !! asset).

(** The request [execute_order] builds for an order, [None] when it refuses
    the order before any call to the broker. *)
Definition order_request (order_data : Order.t)
    : option MarketOrderRequest.t :=
  fst (execute_order (option MarketOrderRequest.t)
         (fun _ request => (Some request, true)) None order_data).

(** The raw positions whose symbol normalizes to [s]. *)
Definition contributing (s : string) (positions : list Position.t)
    : list Position.t :=
  filter (fun pos => normalize_symbol (Position.symbol pos) = s) positions.

(** ** Environment, credentials and configuration *)

(** [str.lower()] on ASCII text. *)
Definition lower_ascii (c : ascii) : ascii :=
  let n := nat_of_ascii c in
  if (65 <=? n)%nat && (n <=? 90)%nat then ascii_of_nat (n + 32) else c.

Fixpoint lower (s : string) : string :=
  match s with
  | EmptyString => EmptyString
  | String c rest => String (lower_ascii c) (lower rest)
  end.

(** [s.startswith(needle)] *)
Fixpoint starts_with (needle s : string) : bool :=
  match needle, s with
  | EmptyString, _ => true
  | String a needle', String b s' => Ascii.eqb a b && starts_with needle' s'
  | String _ _, EmptyString => false
  end.

(** [needle in haystack] *)
Fixpoint contains (needle haystack : string) : bool :=
  match haystack with
  | EmptyString => starts_with needle EmptyString
  | String _ rest => starts_with needle haystack || contains needle rest
  end.

(** Truth value of a string: the empty string is false. *)
Definition nonempty (s : string) : bool :=
  match s with EmptyString => false | String _ _ => true end.

(** The arguments [TradingClient(...)] is called with. *)
Module Client.
Record t := mk { api_key : string; secret_key : string; paper : bool }.
End Client.

(** [environ] is [os.environ]; [None] stands for the [ValueError]. *)
Definition get_alpaca_client (environ : gmap string string) : option Client.t :=
  let api_key := environ !! "ALPACA_API_KEY"%string in
  let secret_key := environ !! "ALPACA_SECRET_KEY"%string in
  let base_url :=
    default "https://paper-api.alpaca.markets"%string
            (environ !! "ALPACA_BASE_URL"%string) in
  match api_key, secret_key with
  | Some api_key, Some secret_key =>
      if nonempty api_key && nonempty secret_key then
        let is_paper :=
          if nonempty base_url then contains "paper-api" (lower base_url)
          else true in
        Some (Client.mk api_key secret_key is_paper)
      else None
  | _, _ => None
  end.

Module OrderConfig.
Record t := mk { dry_run : bool; min_order_size : Q; max_order_size : Q }.
End OrderConfig.

Definition DEFAULT_ORDER_CONFIG : OrderConfig.t :=
  OrderConfig.mk false 10%Q 150000%Q.

(** The value under ['allocations'], of any JSON type: a dict, each value of
    which is a number or something on which [allocation_pct / 100.0] raises
    ([None]: a string, null, a list, ...); or not a dict at all, on which
    [allocations.items()] raises. *)
Inductive Allocations :=
  | NotADict
  | Dict (items : list (string * option Q)).

(** The entries [calculate_target_positions] goes through when it does not
    raise: [None] when the value is not a dict or one percentage is not a
    number. *)
Definition numeric_allocations (allocations : Allocations)
    : option (list (string * Q)) :=
  match allocations with
  | NotADict => None
  | Dict items =>
      mapM (fun '(asset, allocation_pct) =>
              allocation_pct ← allocation_pct; Some (asset, allocation_pct))
           items
  end.

(** The parsed allocation file: ['allocations'] may be missing. *)
Module AllocationData.
Record t := mk { allocations : option Allocations }.
End AllocationData.

(** How [main] ends: it returns, calls [sys.exit(code)], or lets an
    exception escape. *)
Inductive Exit := Returned | Exited (code : nat) | Raised.

(** The calls made on the broker client. *)
Inductive Event :=
  | GetClock
  | GetOrders
  | CancelOrderById (id : string)
  | GetAccount
  | GetAllPositions
  | SubmitOrder (request : MarketOrderRequest.t).

(** The broker behind a client: each call takes the state of the world and
    returns the new state and its result, [None] or [false] when it raises.
    [get_orders] returns the ids of the open orders; [get_account] returns
    [float(account.equity)]. *)
Module Broker.
Record t (W : Type) := mk {
  get_clock : W -> W * option bool;
  get_orders : W -> W * option (list string);
  cancel_order_by_id : W -> string -> W * bool;
  get_account : W -> W * option Q;
  get_all_positions : W -> W * option (list Position.t);
  submit_order : W -> MarketOrderRequest.t -> W * bool
}.
Arguments mk {W}.
Arguments get_clock {W}.
Arguments get_orders {W}.
Arguments cancel_order_by_id {W}.
Arguments get_account {W}.
Arguments get_all_positions {W}.
Arguments submit_order {W}.
End Broker.

(** ** main *)

Section main.
Variable W : Type.
(** [float(...)] on the text of an environment variable. *)
Variable float : string -> option Q.

(** The overrides of [DEFAULT_ORDER_CONFIG] read from the environment;
    [None] when a [float(...)] raises. *)
Definition order_config (environ : gmap string string) : option OrderConfig.t :=
  let dry_run :=
    match environ !! "DRY_RUN"%string with
    | Some v =>
        if nonempty v
        then bool_decide (lower v ∈ ["true"; "1"; "yes"]%string)
        else OrderConfig.dry_run DEFAULT_ORDER_CONFIG
    | None => OrderConfig.dry_run DEFAULT_ORDER_CONFIG
    end in
  min_order_size ←
    match environ !! "MIN_ORDER_SIZE"%string with
    | Some v =>
        if nonempty v then float v
        else Some (OrderConfig.min_order_size DEFAULT_ORDER_CONFIG)
    | None => Some (OrderConfig.min_order_size DEFAULT_ORDER_CONFIG)
    end;
  max_order_size ←
    match environ !! "MAX_ORDER_SIZE"%string with
    | Some v =>
        if nonempty v then float v
        else Some (OrderConfig.max_order_size DEFAULT_ORDER_CONFIG)
    | None => Some (OrderConfig.max_order_size DEFAULT_ORDER_CONFIG)
    end;
  Some (OrderConfig.mk dry_run min_order_size max_order_size).

Definition is_market_open (client : Broker.t W) (w : W) : W * bool :=
  let '(w, clock) := Broker.get_clock client w in
  (w, default true clock).

Definition get_account_equity (client : Broker.t W) (w : W) : W * option Q :=
  Broker.get_account client w.

(** The block of [main] that cancels the pending orders: a failed listing
    is skipped, a failed cancellation does not stop the loop. *)
Definition cancel_pending_orders (client : Broker.t W) (w : W) : W :=
  let '(w, pending_orders) := Broker.get_orders client w in
  match pending_orders with
  | Some pending_orders =>
      fold_left (fun w id => fst (Broker.cancel_order_by_id client w id))
                pending_orders w
  | None => w
  end.

(** [TradingClient] builds the client for the given credentials;
    [allocation_data] is the result of [load_json_file(ALLOCATION_FILE)],
    [None] when it raises.  The call of [calculate_target_positions] stands
    outside every [try]: on allocations that are not a dict of numbers its
    exception escapes, after the calls made so far. *)
Definition main (TradingClient : Client.t -> Broker.t W)
    (environ : gmap string string) (allocation_data : option AllocationData.t)
    (w : W) : W * Exit :=
  match allocation_data with
  | None => (w, Exited 1)
  | Some allocation_data =>
  match order_config environ with
  | None => (w, Raised)
  | Some order_config =>
  match AllocationData.allocations allocation_data with
  | None => (w, Exited 1)
  | Some allocations =>
  match get_alpaca_client environ with
  | None => (w, Exited 1)
  | Some credentials =>
  let client := TradingClient credentials in
  let '(w, _) := is_market_open client w in
  let w := cancel_pending_orders client w in
  let '(w, account_equity) := get_account_equity client w in
  match account_equity with
  | None => (w, Exited 1)
  | Some account_equity =>
  let '(w, positions) := Broker.get_all_positions client w in
  let current_positions := get_current_positions positions in
  match numeric_allocations allocations with
  | None => (w, Raised)
  | Some allocations =>
  let target_positions :=
    calculate_target_positions allocations account_equity
      (Some CRYPTO_TICKER_MAPPING) in
  let min_order_size := OrderConfig.min_order_size order_config in
  let orders :=
    calculate_orders current_positions target_positions min_order_size in
  let '(w, _) :=
    run_orders W (Broker.submit_order client) w orders
      (OrderConfig.dry_run order_config) in
  (w, Returned)
  end end end end end end.
End main.

(** The same broker with every call written to a log. *)
Definition recording {W : Type} (b : Broker.t W) : Broker.t (W * list Event) :=
  Broker.mk
    (fun '(w, log) =>
       let '(w, r) := Broker.get_clock b w in ((w, log ++ [GetClock]), r))
    (fun '(w, log) =>
       let '(w, r) := Broker.get_orders b w in ((w, log ++ [GetOrders]), r))
    (fun '(w, log) id =>
       let '(w, r) := Broker.cancel_order_by_id b w id in
       ((w, log ++ [CancelOrderById id]), r))
    (fun '(w, log) =>
       let '(w, r) := Broker.get_account b w in ((w, log ++ [GetAccount]), r))
    (fun '(w, log) =>
       let '(w, r) := Broker.get_all_positions b w in
       ((w, log ++ [GetAllPositions]), r))
    (fun '(w, log) request =>
       let '(w, r) := Broker.submit_order b w request in
       ((w, log ++ [SubmitOrder request]), r)).

(** The log of a run of [main] that starts with an empty log. *)
Definition main_log {W : Type} (float : string -> option Q)
    (TradingClient : Client.t -> Broker.t W)
    (environ : gmap string string) (allocation_data : option AllocationData.t)
    (w : W) : list Event :=
  snd (fst (main (W * list Event) float
              (fun credentials => recording (TradingClient credentials))
              environ allocation_data (w, []))).

Definition is_submit (e : Event) : bool :=
  match e with SubmitOrder _ => true | _ => false end.

Definition is_cancel (e : Event) : bool :=
  match e with CancelOrderById _ => true | _ => false end.

(** ** A sample portfolio *)

(** Four situations at once: AAPL is held below its target, TSLA is held and
    dropped from the target, BTC/USD is held far above a small target, MSFT
    is a target without a position. *)
Definition sample_positions : gmap string PositionData.t :=
  <["AAPL"%string := PositionData.mk (Some 1000%Q) (Some 5%Q)]>
  (<["TSLA"%string := PositionData.mk (Some 800%Q) (Some 4%Q)]>
   (<["BTC/USD"%string := PositionData.mk (Some 190%Q) (Some 0.0019%Q)]> ∅)).

Definition sample_targets : gmap string Q :=
  <["AAPL"%string := 1500%Q]>
  (<["BTC/USD"%string := 19%Q]> (<["MSFT"%string := 200%Q]> ∅)).

Definition sample_buy : Order.t :=
  Order.mk "AAPL" buy (Some (round ((1500 - 1000) / (1000 / 5)) 3)) None None.

Definition sample_sell : Order.t :=
  Order.mk "TSLA" sell (Some (round 4 3)) None (Some 800%Q).

(** A sample run of [main]: credentials without a base URL, an allocation
    of 20 percent to MSFT, and a broker that holds one open order, reports
    1000 dollars of equity, fails to list positions and accepts every
    submission. *)
Definition sample_environ : gmap string string :=
  <["ALPACA_API_KEY"%string := "key"%string]>
  (<["ALPACA_SECRET_KEY"%string := "secret"%string]> ∅).

Definition sample_allocation : AllocationData.t :=
  AllocationData.mk (Some (Dict [("MSFT"%string, Some 20%Q)])).

Definition blind_broker : Broker.t unit :=
  Broker.mk
    (fun w => (w, Some true))
    (fun w => (w, Some ["order-1"%string]))
    (fun w _ => (w, false))
    (fun w => (w, Some 1000%Q))
    (fun w => (w, None))
    (fun w _ => (w, true)).

Definition sample_request : MarketOrderRequest.t :=
  MarketOrderRequest.mk "MSFT" buy None
    (Some (round (round (20 / 100 * 1000 - 0) 2) 2)) DAY.

(** ** Basic facts about the numeric primitives *)

Section numeric.
Local Open Scope Q_scope.

Lemma Qltb_lt (x y : Q) : Qltb x y = true <-> x < y.
Proof.
  unfold Qltb. rewrite Qlt_alt.
  destruct (x ?= y); split; congruence.
Qed.

Lemma Qltb_ge (x y : Q) : Qltb x y = false <-> y <= x.
Proof.
  rewrite <- not_true_iff_false, Qltb_lt. split.
  - apply Qnot_lt_le.
  - apply Qle_not_lt.
Qed.

Lemma round_decimal_places (x : Q) (n : nat) : decimal_places_le n (round x n).
Proof. eexists. unfold round. reflexivity. Qed.

(** [round_half_even] is within one half of its argument. *)
Lemma round_half_even_bounds (x : Q) :
  inject_Z (round_half_even x) - (1 # 2) <= x
  /\ x <= inject_Z (round_half_even x) + (1 # 2).
Proof.
  destruct x as [n d]. unfold round_half_even. cbn [Qnum Qden].
  pose proof (Z.div_mod n (Zpos d) ltac:(lia)) as Hn.
  pose proof (Z.mod_pos_bound n (Zpos d) ltac:(lia)) as Hr.
  set (f := (n / Zpos d)%Z) in *. set (r := (n mod Zpos d)%Z) in *.
  unfold Qminus. unfold Qle, Qplus, Qopp, inject_Z. cbn [Qnum Qden].
  rewrite !Pos2Z.inj_mul.
  destruct (Z.compare_spec (2 * r) (Zpos d)) as [He|Hl|Hg].
  - destruct (Z.even f); split; nia.
  - split; nia.
  - split; nia.
Qed.

(** [round(x, n)] is within half a unit of the last place of [x]. *)
Lemma round_bounds (x : Q) (n : nat) :
  round x n - (1 # (2 * pow10 n)) <= x /\ x <= round x n + (1 # (2 * pow10 n)).
Proof.
  unfold round.
  pose proof (round_half_even_bounds (x * inject_Z (Zpos (pow10 n))))
    as [Hlo Hhi].
  set (z := round_half_even _) in *. set (p := pow10 n) in *.
  destruct x as [a b]. unfold Qminus in *.
  unfold Qle, Qplus, Qopp, Qmult, inject_Z in *.
  cbn [Qnum Qden] in *. rewrite !Pos2Z.inj_mul in *. split; nia.
Qed.

Lemma py_min_le_r (a b : Q) : py_min a b <= b.
Proof.
  unfold py_min. destruct (Qltb b a) eqn:E.
  - apply Qle_refl.
  - by apply Qltb_ge.
Qed.
End numeric.

(** ** The loop of calculate_orders as a filter-map *)

Section loop.
Variable cur : gmap string PositionData.t.
Variable tgt : gmap string Q.
Variable mos : Q.

Lemma omap_cons_eq {A B} (f : A -> option B) (x : A) (l : list A) :
  omap f (x :: l)
  = match f x with Some y => y :: omap f l | None => omap f l end.
Proof. reflexivity. Qed.

Lemma calculate_orders_on_omap (l : list string) :
  calculate_orders_on cur tgt mos l = omap (order_for cur tgt mos) l.
Proof.
  unfold calculate_orders_on.
  enough (H : forall acc, fold_left
    (fun orders symbol =>
       match order_for cur tgt mos symbol with
       | Some o => orders ++ [o]
       | None => orders
       end)
    l acc = acc ++ omap (order_for cur tgt mos) l) by apply (H []).
  induction l as [|s l IH]; intros acc.
  - simpl. by rewrite app_nil_r.
  - rewrite omap_cons_eq. simpl. rewrite IH. destruct (order_for cur tgt mos s); [|done].
    by rewrite <- app_assoc.
Qed.

Lemma order_for_symbol (s : string) (o : Order.t) :
  order_for cur tgt mos s = Some o -> Order.symbol o = s.
Proof.
  unfold order_for, sell_order, buy_order, notional_buy.
  repeat case_match; intros; simplify_eq; done.
Qed.

Lemma orders_of_omap_notin (s : string) (l : list string) :
  s ∉ l -> orders_of s (omap (order_for cur tgt mos) l) = [].
Proof.
  unfold orders_of.
  induction l as [|x l IH]; [done|]. intros Hs.
  apply not_elem_of_cons in Hs as [Hne Hs]. rewrite omap_cons_eq.
  destruct (order_for cur tgt mos x) as [o|] eqn:Ho; [|by apply IH].
  rewrite filter_cons_False; [by apply IH|].
  apply order_for_symbol in Ho. congruence.
Qed.

Lemma orders_of_omap (s : string) (l : list string) :
  NoDup l -> s ∈ l ->
  orders_of s (omap (order_for cur tgt mos) l)
  = option_list (order_for cur tgt mos s).
Proof.
  induction 1 as [|x l Hx Hl IH]; [by intros ?%elem_of_nil|].
  intros Hs. rewrite omap_cons_eq. destruct (decide (x = s)) as [->|Hne].
  - pose proof (orders_of_omap_notin s l Hx) as Hnil.
    unfold orders_of in *.
    destruct (order_for cur tgt mos s) as [o|] eqn:Ho; simpl; [|done].
    rewrite filter_cons_True by by apply (order_for_symbol s).
    by rewrite Hnil.
  - apply elem_of_cons in Hs as [?|Hs]; [congruence|].
    unfold orders_of in *.
    destruct (order_for cur tgt mos x) as [o|] eqn:Ho; [|by apply IH].
    rewrite filter_cons_False; [by apply IH|].
    apply order_for_symbol in Ho. congruence.
Qed.

Lemma NoDup_symbols_omap (l : list string) :
  NoDup l -> NoDup (Order.symbol <$> omap (order_for cur tgt mos) l).
Proof.
  induction 1 as [|x l Hx Hl IH]; [constructor|]. rewrite omap_cons_eq.
  destruct (order_for cur tgt mos x) as [o|] eqn:Ho; [|done].
  rewrite fmap_cons. constructor; [|done].
  apply order_for_symbol in Ho. rewrite Ho.
  intros (o' & Hs & Hin)%list_elem_of_fmap.
  apply list_elem_of_omap in Hin as (y & Hy & Ho').
  apply order_for_symbol in Ho'. congruence.
Qed.

(** A symbol outside the union has no position and no target, and the loop
    body would produce nothing for it. *)
Lemma order_for_outside (s : string) :
  s ∉ all_symbols cur tgt -> order_for cur tgt mos s = None.
Proof.
  unfold all_symbols. rewrite not_elem_of_union, !not_elem_of_dom.
  intros [Hc Ht].
  unfold order_for, skipped, should_close_position, sell_order, sell_qty,
    difference, symbol_in_target, target_value, current_value, current_qty.
  rewrite Hc, Ht. simpl.
  by destruct (Qltb _ mos).
Qed.

(** The orders about [s] in the result are what the loop body gives for [s]. *)
Lemma orders_of_calculate_orders (s : string) :
  orders_of s (calculate_orders cur tgt mos)
  = option_list (order_for cur tgt mos s).
Proof.
  unfold calculate_orders. rewrite calculate_orders_on_omap.
  destruct (decide (s ∈ all_symbols cur tgt)) as [Hin|Hout].
  - apply orders_of_omap; [apply NoDup_elements|by apply elem_of_elements].
  - rewrite orders_of_omap_notin by by rewrite elem_of_elements.
    by rewrite order_for_outside.
Qed.

Lemma elem_of_calculate_orders (o : Order.t) :
  o ∈ calculate_orders cur tgt mos
  <-> order_for cur tgt mos (Order.symbol o) = Some o.
Proof.
  split.
  - unfold calculate_orders. rewrite calculate_orders_on_omap.
    intros (s & _ & Ho)%list_elem_of_omap.
    by rewrite (order_for_symbol _ _ Ho).
  - intros Ho.
    assert (o ∈ orders_of (Order.symbol o) (calculate_orders cur tgt mos)) as Hin.
    { rewrite orders_of_calculate_orders, Ho. simpl. apply list_elem_of_here. }
    unfold orders_of in Hin. by apply list_elem_of_filter in Hin as [_ ?].
Qed.
End loop.

(** ** The branch conditions of the loop body *)

Section conditions.
Variable cur : gmap string PositionData.t.
Variable tgt : gmap string Q.
Variable mos : Q.
Local Open Scope Q_scope.

Lemma symbol_in_target_false (s : string) :
  symbol_in_target tgt s = false <-> tgt !! s = None.
Proof.
  unfold symbol_in_target. rewrite bool_decide_eq_false.
  rewrite <- eq_None_not_Some. done.
Qed.

Lemma target_value_absent (s : string) :
  tgt !! s = None -> target_value tgt s = 0.
Proof. unfold target_value. by intros ->. Qed.

Lemma should_close_position_spec (s : string) :
  should_close_position cur tgt s = true <-> closing cur tgt s.
Proof.
  unfold should_close_position, closing.
  rewrite andb_true_iff, orb_true_iff, negb_true_iff.
  by rewrite symbol_in_target_false, Qeq_bool_iff, Qltb_lt.
Qed.

Lemma skipped_spec (s : string) :
  skipped cur tgt mos s = true
  <-> ~ closing cur tgt s /\ Qabs (difference cur tgt s) < mos.
Proof.
  unfold skipped.
  rewrite andb_true_iff, negb_true_iff, Qltb_lt.
  by rewrite <- not_true_iff_false, should_close_position_spec.
Qed.

Lemma closing_target_zero (s : string) :
  closing cur tgt s -> target_value tgt s == 0.
Proof.
  intros [[Habs|Hz] _]; [|done]. by rewrite target_value_absent.
Qed.

Lemma closing_sell_qty (s : string) :
  closing cur tgt s -> sell_qty cur tgt s = round (current_qty cur s) 3.
Proof.
  intros Hc. unfold sell_qty.
  destruct (symbol_in_target tgt s); [|done]. simpl.
  by rewrite (proj2 (Qeq_bool_iff _ _) (closing_target_zero s Hc)).
Qed.

Lemma closing_order_for (s : string) :
  closing cur tgt s -> order_for cur tgt mos s = sell_order cur tgt s.
Proof.
  intros Hc. unfold order_for.
  assert (skipped cur tgt mos s = false) as ->.
  { apply not_true_iff_false. rewrite skipped_spec. tauto. }
  assert (Qltb 0 (difference cur tgt s) = false) as ->; [|done].
  apply Qltb_ge. unfold difference.
  rewrite (closing_target_zero s Hc). destruct Hc as [_ Hpos]. lra.
Qed.

Lemma order_for_matched (s : string) :
  0 < mos -> current_value cur s == target_value tgt s ->
  order_for cur tgt mos s = None.
Proof.
  intros Hmos Heq. unfold order_for.
  assert (skipped cur tgt mos s = true) as ->; [|done].
  apply skipped_spec. split.
  - intros [Hz Hpos]. assert (target_value tgt s == 0) as Hz'.
    { destruct Hz as [Hz|Hz]; [by rewrite target_value_absent|done]. }
    lra.
  - assert (difference cur tgt s == 0) as ->; [unfold difference; lra|done].
Qed.

Lemma omap_all_None {A B} (f : A -> option B) (l : list A) :
  (forall x, x ∈ l -> f x = None) -> omap f l = [].
Proof.
  induction l as [|x l IH]; [done|]. intros H.
  rewrite omap_cons_eq, (H x) by apply list_elem_of_here.
  apply IH. intros y Hy. apply H. by apply list_elem_of_further.
Qed.
End conditions.

(** ** Properties of calculate_orders *)

Section calculate_orders_properties.
Local Open Scope Q_scope.

(** The full close where it works.  A symbol that is being closed (absent
    from the target or with target value zero, and held with positive value)
    gets exactly one instruction, a sell of [round(current_qty, 3)] shares,
    whatever [min_order_size] is, when that rounded quantity is positive. *)
Theorem full_close_sell (cur : gmap string PositionData.t)
    (tgt : gmap string Q) (mos : Q) (s : string) :
  closing cur tgt s ->
  0 < round (current_qty cur s) 3 ->
  orders_of s (calculate_orders cur tgt mos)
  = [Order.mk s sell (Some (round (current_qty cur s) 3)) None
               (Some (current_value cur s))].
Proof.
  intros Hc Hpos. rewrite orders_of_calculate_orders, closing_order_for by done.
  unfold sell_order. rewrite closing_sell_qty by done.
  by rewrite (proj2 (Qltb_lt _ _) Hpos).
Qed.

(** Where it does not: a symbol that is being closed and whose rounded
    quantity is not positive gets no instruction, and the position stays. *)
Lemma full_close_guard (cur : gmap string PositionData.t)
    (tgt : gmap string Q) (mos : Q) (s : string) :
  closing cur tgt s ->
  round (current_qty cur s) 3 <= 0 ->
  orders_of s (calculate_orders cur tgt mos) = [].
Proof.
  intros Hc Hle. rewrite orders_of_calculate_orders, closing_order_for by done.
  unfold sell_order. rewrite closing_sell_qty by done.
  by rewrite (proj2 (Qltb_ge _ _) Hle).
Qed.

(** C2.  A symbol that is not being closed and whose value is within
    [min_order_size] of its target gets no instruction. *)
Theorem dead_band_no_instruction (cur : gmap string PositionData.t)
    (tgt : gmap string Q) (mos : Q) (s : string) :
  ~ closing cur tgt s ->
  Qabs (target_value tgt s - current_value cur s) < mos ->
  orders_of s (calculate_orders cur tgt mos) = [].
Proof.
  intros Hnc Hsmall. rewrite orders_of_calculate_orders.
  unfold order_for.
  by rewrite (proj2 (skipped_spec cur tgt mos s) (conj Hnc Hsmall)).
Qed.

(** C4.  A symbol whose target exceeds its current value and that passes the
    dead-band filter gets exactly one instruction, a buy: with the rounded
    share quantity and no notional when a positive price and a positive
    rounded quantity can be inferred from the existing position, and with
    [notional = round(difference, 2)] and no quantity in every other case. *)
Theorem buy_instruction (cur : gmap string PositionData.t)
    (tgt : gmap string Q) (mos : Q) (s : string) :
  let current_value := current_value cur s in
  let current_qty := current_qty cur s in
  let difference := target_value tgt s - current_value in
  let approx_price := current_value / current_qty in
  let buy_qty := round (difference / approx_price) 3 in
  let by_quantity :=
    0 < current_qty /\ 0 < current_value /\ 0 < approx_price /\ 0 < buy_qty in
  0 < difference ->
  ~ (~ closing cur tgt s /\ Qabs difference < mos) ->
  (by_quantity ->
   orders_of s (calculate_orders cur tgt mos)
   = [Order.mk s buy (Some buy_qty) None None])
  /\ (~ by_quantity ->
      orders_of s (calculate_orders cur tgt mos)
      = [Order.mk s buy None (Some (round difference 2)) None]).
Proof.
  intros cv cq diff price bq byq Hdiff Hpass.
  rewrite orders_of_calculate_orders. unfold order_for.
  assert (skipped cur tgt mos s = false) as ->.
  { apply not_true_iff_false. by rewrite skipped_spec. }
  fold cv in diff. change (difference cur tgt s) with diff.
  rewrite (proj2 (Qltb_lt _ _) Hdiff).
  unfold buy_order, notional_buy.
  change (difference cur tgt s) with diff.
  change (current_qty cur s) with cq. change (current_value cur s) with cv.
  change (cv / cq) with price. change (round (diff / price) 3) with bq.
  split.
  - intros (Hq & Hv & Hp & Hb).
    by rewrite !(proj2 (Qltb_lt _ _)) by done.
  - intros Hn.
    destruct (Qltb 0 cq) eqn:Eq; [|done].
    destruct (Qltb 0 cv) eqn:Ev; [|done]. simpl.
    destruct (Qltb 0 price) eqn:Ep; [|done].
    destruct (Qltb 0 bq) eqn:Eb; [|done].
    exfalso. apply Hn. unfold byq. by rewrite <- !Qltb_lt.
Qed.

(** The exact match: when the current positions have the symbols of the
    target, each current value equal to its target value, and
    [min_order_size] is positive, no instruction is computed. *)
Theorem matched_portfolio_no_orders (cur : gmap string PositionData.t)
    (tgt : gmap string Q) (mos : Q) :
  0 < mos ->
  dom cur = dom tgt ->
  (forall s, s ∈ dom cur -> current_value cur s == target_value tgt s) ->
  calculate_orders cur tgt mos = [].
Proof.
  intros Hmos Hdom Heq. unfold calculate_orders.
  rewrite calculate_orders_on_omap. apply omap_all_None.
  intros s Hs. apply order_for_matched; [done|].
  apply Heq. apply elem_of_elements in Hs. unfold all_symbols in Hs.
  rewrite <- Hdom in Hs. by apply elem_of_union in Hs as [?|?].
Qed.

(** C5, as amended.  When the current positions have the symbols of the
    target, every current value is within [tolerance] of its target value,
    the tolerance is below [min_order_size], and no symbol with a target of
    zero is held with a positive value, no instruction is computed.  With a
    tolerance of zero this is the exact match, for any positive
    [min_order_size]; with the tolerance of 0.01 dollars it asks for a
    [min_order_size] above 0.01.  Quantities play no part. *)
Theorem matched_within_tolerance (cur : gmap string PositionData.t)
    (tgt : gmap string Q) (mos tolerance : Q) :
  dom cur = dom tgt ->
  (forall s, s ∈ dom cur ->
     Qabs (target_value tgt s - current_value cur s) <= tolerance) ->
  tolerance < mos ->
  (forall s, target_value tgt s == 0 -> current_value cur s <= 0) ->
  calculate_orders cur tgt mos = [].
Proof.
  intros Hdom Hnear Htol Hzero. unfold calculate_orders.
  rewrite calculate_orders_on_omap. apply omap_all_None.
  intros s Hs. apply elem_of_elements in Hs. unfold all_symbols in Hs.
  rewrite <- Hdom in Hs.
  assert (s ∈ dom cur) as Hin by (by apply elem_of_union in Hs as [?|?]).
  clear Hs. rename Hin into Hs. unfold order_for.
  assert (skipped cur tgt mos s = true) as ->; [|done].
  apply skipped_spec. split.
  - intros [[Hnone|Hz] Hpos].
    + rewrite Hdom in Hs. apply elem_of_dom in Hs as [? Hs]. congruence.
    + specialize (Hzero s Hz). lra.
  - eapply Qle_lt_trans; [by apply Hnear|done].
Qed.

(** C10.  No symbol appears in more than one instruction of the result. *)
Theorem one_instruction_per_symbol (cur : gmap string PositionData.t)
    (tgt : gmap string Q) (mos : Q) :
  NoDup (Order.symbol <$> calculate_orders cur tgt mos).
Proof.
  unfold calculate_orders. rewrite calculate_orders_on_omap.
  apply NoDup_symbols_omap, NoDup_elements.
Qed.
End calculate_orders_properties.

(** ** get_current_positions *)

Section aggregation.
Local Open Scope Q_scope.

Lemma complete_insert (m : gmap string PositionData.t) (s : string) (v q : Q) :
  complete m -> complete (<[s := PositionData.mk (Some v) (Some q)]> m).
Proof.
  intros Hm s' entry. rewrite lookup_insert. case_decide.
  - intros [= <-]. simpl. eauto.
  - apply Hm.
Qed.

Lemma current_value_insert (m : gmap string PositionData.t) (s s' : string)
    (v q : Q) :
  current_value (<[s := PositionData.mk (Some v) (Some q)]> m) s'
  = if decide (s = s') then v else current_value m s'.
Proof. unfold current_value. rewrite lookup_insert. by case_decide. Qed.

Lemma current_qty_insert (m : gmap string PositionData.t) (s s' : string)
    (v q : Q) :
  current_qty (<[s := PositionData.mk (Some v) (Some q)]> m) s'
  = if decide (s = s') then q else current_qty m s'.
Proof. unfold current_qty. rewrite lookup_insert. by case_decide. Qed.

Lemma add_position_spec (m m' : gmap string PositionData.t) (pos : Position.t) :
  add_position m pos = Some m' -> complete m ->
  exists mv q,
    Position.market_value pos = Some mv /\ Position.qty pos = Some q
    /\ complete m'
    /\ dom m' = {[normalize_symbol (Position.symbol pos)]} ∪ dom m
    /\ forall s,
        current_value m' s ==
          current_value m s
          + (if decide (normalize_symbol (Position.symbol pos) = s)
             then mv else 0)
        /\ current_qty m' s ==
          current_qty m s
          + (if decide (normalize_symbol (Position.symbol pos) = s)
             then q else 0).
Proof.
  unfold add_position. intros Hadd Hm.
  destruct (Position.market_value pos) as [mv|]; [|done].
  destruct (Position.qty pos) as [q|]; [|done]. simpl in Hadd.
  exists mv, q. split; [done|]. split; [done|].
  destruct (m !! normalize_symbol (Position.symbol pos)) as [entry|] eqn:He.
  - destruct (Hm _ _ He) as [[v Hv] [q' Hq]]. rewrite Hv, Hq in Hadd.
    simpl in Hadd. injection Hadd as <-.
    split; [by apply complete_insert|]. split; [by rewrite dom_insert_L|].
    intros s. rewrite current_value_insert, current_qty_insert.
    case_decide as Hs.
    + subst s. unfold current_value, current_qty. rewrite He. simpl.
      rewrite Hv, Hq. simpl. split; reflexivity.
    + split; lra.
  - injection Hadd as <-.
    split; [by apply complete_insert|]. split; [by rewrite dom_insert_L|].
    intros s. rewrite current_value_insert, current_qty_insert.
    case_decide as Hs.
    + subst s. unfold current_value, current_qty. rewrite He. simpl.
      split; lra.
    + split; lra.
Qed.

Lemma contributing_cons (s : string) (pos : Position.t) (l : list Position.t) :
  contributing s (pos :: l)
  = if decide (normalize_symbol (Position.symbol pos) = s)
    then pos :: contributing s l else contributing s l.
Proof. unfold contributing. rewrite filter_cons. by case_decide. Qed.

Lemma aggregate_spec (l : list Position.t) (m m' : gmap string PositionData.t) :
  aggregate l m = Some m' -> complete m ->
  complete m' /\ Forall converted l
  /\ dom m'
     = dom m ∪ list_to_set ((fun pos => normalize_symbol (Position.symbol pos)) <$> l)
  /\ forall s,
      current_value m' s ==
        current_value m s + Qsum (omap Position.market_value (contributing s l))
      /\ current_qty m' s ==
        current_qty m s + Qsum (omap Position.qty (contributing s l)).
Proof.
  revert m. induction l as [|pos l IH]; intros m Hagg Hm.
  - injection Hagg as <-. split; [done|]. split; [constructor|].
    split; [simpl; by rewrite (right_id_L ∅ (∪))|].
    intros s. simpl. split; lra.
  - simpl in Hagg.
    destruct (add_position m pos) as [m1|] eqn:Hadd; [|done]. simpl in Hagg.
    destruct (add_position_spec _ _ _ Hadd Hm)
      as (mv & q & Hmv & Hq & Hm1 & Hdom1 & Hstep).
    destruct (IH _ Hagg Hm1) as (Hm' & Hall & Hdom & Hsum).
    split; [done|]. split.
    { constructor; [|done]. unfold converted. rewrite Hmv, Hq. eauto. }
    split.
    { rewrite Hdom, Hdom1, fmap_cons. simpl.
      apply set_eq. intros x. rewrite !elem_of_union. tauto. }
    intros s. destruct (Hsum s) as [Hv' Hq']. destruct (Hstep s) as [Hv1 Hq1].
    rewrite contributing_cons. case_decide.
    + rewrite !omap_cons_eq, Hmv, Hq. simpl. split; lra.
    + split; lra.
Qed.

(** C7.  An entry of the result of get_current_positions carries, under
    ['value'], the sum of the market values of the raw positions whose symbol
    normalizes to its key and, under ['qty'], the sum of their quantities;
    every raw position was converted and at least one contributes. *)
Theorem aggregated_by_normalized_symbol (positions : list Position.t)
    (s : string) (entry : PositionData.t) :
  get_current_positions (Some positions) !! s = Some entry ->
  exists value qty,
    entry = PositionData.mk (Some value) (Some qty)
    /\ value == Qsum (omap Position.market_value (contributing s positions))
    /\ qty == Qsum (omap Position.qty (contributing s positions))
    /\ Forall converted positions
    /\ contributing s positions <> [].
Proof.
  unfold get_current_positions.
  destruct (aggregate positions ∅) as [m|] eqn:Hagg; simpl; [|done].
  intros Hs.
  assert (complete ∅) as Hempty by (intros ? ?; by rewrite lookup_empty).
  destruct (aggregate_spec _ _ _ Hagg Hempty) as (Hm & Hall & Hdom & Hsum).
  destruct (Hm _ _ Hs) as [[v Hv] [q Hq]].
  destruct (Hsum s) as [Hvs Hqs].
  unfold current_value, current_qty in Hvs, Hqs.
  rewrite Hs, lookup_empty in Hvs, Hqs. simpl in Hvs, Hqs.
  rewrite Hv in Hvs. rewrite Hq in Hqs. simpl in Hvs, Hqs.
  exists v, q. split; [destruct entry; simpl in *; by subst|].
  split; [lra|]. split; [lra|]. split; [done|].
  assert (s ∈ dom m) as Hin by (apply elem_of_dom; eauto).
  rewrite Hdom, dom_empty_L, (left_id_L ∅ (∪)) in Hin.
  apply elem_of_list_to_set, list_elem_of_fmap in Hin as (pos & -> & Hpos).
  intros Hnil.
  assert (pos ∈ contributing (normalize_symbol (Position.symbol pos)) positions) as Hc.
  { unfold contributing. by apply list_elem_of_filter. }
  rewrite Hnil in Hc. by apply elem_of_nil in Hc.
Qed.

(** When a call or a conversion raises, the result is the empty dict. *)
Lemma get_current_positions_error (positions : list Position.t) :
  ~ Forall converted positions -> get_current_positions (Some positions) = ∅.
Proof.
  intros Hn. unfold get_current_positions.
  destruct (aggregate positions ∅) as [m|] eqn:Hagg; [|done].
  exfalso. apply Hn.
  eapply aggregate_spec; [done|]. intros ? ?. by rewrite lookup_empty.
Qed.
End aggregation.

(** ** calculate_target_positions *)

Section targets.
Variable account_equity : Q.
Variable crypto_mapping : option (gmap string string).
Local Open Scope Q_scope.

Lemma calculate_target_positions_snoc (allocations : list (string * Q))
    (asset : string) (allocation_pct : Q) :
  calculate_target_positions (allocations ++ [(asset, allocation_pct)])
    account_equity crypto_mapping
  = <[mapped_symbol crypto_mapping asset :=
        allocation_pct / 100 * account_equity]>
      (calculate_target_positions allocations account_equity crypto_mapping).
Proof. unfold calculate_target_positions. by rewrite fold_left_app. Qed.

Lemma calculate_target_positions_dom (allocations : list (string * Q)) :
  dom (calculate_target_positions allocations account_equity crypto_mapping)
  = list_to_set (mapped_symbol crypto_mapping <$> allocations.*1).
Proof.
  induction allocations as [|[asset pct] l IH] using rev_ind; [done|].
  rewrite calculate_target_positions_snoc, dom_insert_L, IH.
  rewrite !fmap_app, list_to_set_app_L. simpl.
  apply set_eq. intros x.
  rewrite !elem_of_union, elem_of_singleton, elem_of_empty. tauto.
Qed.

Lemma calculate_target_positions_last (allocations : list (string * Q))
    (symbol : string) :
  calculate_target_positions allocations account_equity crypto_mapping !! symbol
  = (fun e => e.2 / 100 * account_equity)
    <$> last (filter (fun e => mapped_symbol crypto_mapping e.1 = symbol)
                     allocations).
Proof.
  induction allocations as [|[asset pct] l IH] using rev_ind; [done|].
  rewrite calculate_target_positions_snoc, filter_app, lookup_insert.
  rewrite filter_cons, filter_nil. simpl. case_decide.
  - by rewrite last_snoc.
  - by rewrite app_nil_r.
Qed.

(** C8, as amended.  For an entry of the allocation dict that no later entry
    shares its trading symbol with, the result maps that symbol to
    [(percentage / 100.0) * account_equity], whatever the sign or size of the
    percentage; a ticker without a crypto mapping is its own symbol.  (When
    several tickers map to one symbol the last of them in iteration order
    sets the value.) *)
Theorem target_of_last_entry (before after : list (string * Q))
    (ticker : string) (percentage : Q) :
  Forall (fun e => mapped_symbol crypto_mapping e.1
                   <> mapped_symbol crypto_mapping ticker) after ->
  calculate_target_positions (before ++ (ticker, percentage) :: after)
    account_equity crypto_mapping
  !! mapped_symbol crypto_mapping ticker
  = Some (percentage / 100 * account_equity)
  /\ (default ∅ crypto_mapping !! ticker = None ->
      mapped_symbol crypto_mapping ticker = ticker).
Proof.
  intros Hafter. split.
  - rewrite calculate_target_positions_last, filter_app, filter_cons_True by done.
    assert (filter (fun e => mapped_symbol crypto_mapping e.1
                             = mapped_symbol crypto_mapping ticker) after = [])
      as ->.
    { clear -Hafter. induction Hafter as [|e l He _ IH]; [done|].
      by rewrite filter_cons_False. }
    by rewrite last_snoc.
  - unfold mapped_symbol. by intros ->.
Qed.
End targets.

(** ** Sequencing of the orders in main *)

Section sequencing.
Variable TradingClient : Type.
Variable submit_order :
  TradingClient -> MarketOrderRequest.t -> TradingClient * bool.

Lemma sorted_orders_perm (orders : list Order.t) :
  sorted_orders orders ≡ₚ orders.
Proof.
  unfold sorted_orders, sell_orders, buy_orders.
  induction orders as [|o l IH]; [done|].
  rewrite !filter_cons. destruct (Order.side o) eqn:Hside.
  - rewrite decide_False, decide_True by done.
    by rewrite <- Permutation_middle, IH.
  - rewrite decide_True, decide_False by done. simpl. by rewrite IH.
Qed.

Lemma sells_precede_buys (orders : list Order.t) (i j : nat) (o1 o2 : Order.t) :
  sorted_orders orders !! i = Some o1 -> sorted_orders orders !! j = Some o2 ->
  Order.side o1 = sell -> Order.side o2 = buy -> (i < j)%nat.
Proof.
  unfold sorted_orders. rewrite !lookup_app_Some.
  intros [H1|[_ H1]] [H2|[Hj H2]] Hs Hb.
  - apply list_elem_of_lookup_2, list_elem_of_filter in H2 as [? _]. congruence.
  - apply lookup_lt_Some in H1. lia.
  - apply list_elem_of_lookup_2, list_elem_of_filter in H1 as [? _]. congruence.
  - apply list_elem_of_lookup_2, list_elem_of_filter in H1 as [? _]. congruence.
Qed.

Lemma execute_all_handed_over (orders : list Order.t) (client : TradingClient)
    (k : nat) :
  exists client' n,
    execute_all TradingClient submit_order orders (client, k)
    = (client', (k + n)%nat)
    /\ handed_over submit_order client orders (client', n).
Proof.
  revert client k. induction orders as [|o l IH]; intros client k.
  - exists client, 0%nat. split; [simpl; f_equal; lia|constructor].
  - unfold execute_all in *. cbn [fold_left].
    destruct (execute_order TradingClient submit_order client o)
      as [client1 ok] eqn:Hex.
    destruct (IH client1 (if ok then S k else k)) as (client' & n & Heq & Hrun).
    exists client', (if ok then S n else n). split.
    + rewrite Heq. f_equal. destruct ok; lia.
    + by apply (handed_over_cons _ _ _ client1).
Qed.

Lemma filter_side_twice (sd sd' : Side) (orders : list Order.t) :
  filter (fun o => Order.side o = sd) (filter (fun o => Order.side o = sd') orders)
  = if decide (sd = sd') then filter (fun o => Order.side o = sd) orders
    else [].
Proof.
  induction orders as [|o l IH]; [by case_decide|].
  rewrite (filter_cons (fun o => Order.side o = sd')).
  destruct (decide (Order.side o = sd')) as [Ho|Ho].
  - rewrite !filter_cons, IH.
    destruct (decide (sd = sd')) as [->|Hne].
    + by rewrite decide_True.
    + rewrite decide_False; [done|congruence].
  - rewrite IH. destruct (decide (sd = sd')) as [->|Hne]; [|done].
    by rewrite filter_cons_False.
Qed.

Lemma sorted_orders_stable (orders : list Order.t) :
  sell_orders (sorted_orders orders) = sell_orders orders
  /\ buy_orders (sorted_orders orders) = buy_orders orders.
Proof.
  unfold sorted_orders, sell_orders, buy_orders.
  rewrite !filter_app, !filter_side_twice.
  rewrite !decide_True, !decide_False by done.
  by rewrite app_nil_r.
Qed.

(** C6.  When it is not a dry run, [main] hands to [execute_order] exactly
    the computed orders, partitioned by side with the sells first: every
    order of the sequence [sorted_orders orders] is handed over, one after
    the other and none skipped, and the client state and [success_count]
    the run ends with are those this succession of calls produces; the
    sequence is a rearrangement of the computed list (nothing added,
    nothing dropped); every sell in it stands before every buy; and within
    each side the computed order is kept. *)
Theorem sells_execute_before_buys (client : TradingClient)
    (orders : list Order.t) :
  let executed := sorted_orders orders in
  handed_over submit_order client executed
    (run_orders TradingClient submit_order client orders false)
  /\ executed ≡ₚ orders
  /\ (forall i j o1 o2,
        executed !! i = Some o1 -> executed !! j = Some o2 ->
        Order.side o1 = sell -> Order.side o2 = buy -> (i < j)%nat)
  /\ sell_orders executed = sell_orders orders
  /\ buy_orders executed = buy_orders orders.
Proof.
  intros executed. subst executed. split; [|split; [|split]].
  - unfold run_orders. destruct orders as [|o l]; [constructor|].
    destruct (execute_all_handed_over (sorted_orders (o :: l)) client 0)
      as (client' & n & Heq & Hrun).
    by rewrite Heq.
  - apply sorted_orders_perm.
  - apply sells_precede_buys.
  - apply sorted_orders_stable.
Qed.

(** [execute_order] either refuses the order or passes one request, the one
    of [order_request], to the broker. *)
Lemma execute_order_request (client : TradingClient) (order_data : Order.t) :
  execute_order TradingClient submit_order client order_data
  = match order_request order_data with
    | Some request => submit_order client request
    | None => (client, false)
    end.
Proof.
  unfold order_request, execute_order.
  destruct (Order.side order_data);
    repeat match goal with
           | |- context [if ?b then _ else _] => destruct b
           end; done.
Qed.
End sequencing.

(** With a broker that records what it receives, the log of a run is the
    requests of the sells followed by the requests of the buys. *)
Lemma execute_all_recording (orders : list Order.t)
    (log : list MarketOrderRequest.t) (n : nat) :
  execute_all _ recording_submit orders (log, n)
  = (log ++ omap order_request orders,
     (n + length (omap order_request orders))%nat).
Proof.
  revert log n. induction orders as [|o l IH]; intros log n.
  - simpl. by rewrite app_nil_r, Nat.add_0_r.
  - unfold execute_all in *. rewrite omap_cons_eq. simpl.
    rewrite execute_order_request.
    destruct (order_request o) as [request|]; simpl; rewrite IH.
    + rewrite <- app_assoc. simpl. f_equal. lia.
    + done.
Qed.

Lemma run_orders_recording (orders : list Order.t) :
  run_orders _ recording_submit [] orders false
  = (omap order_request (sell_orders orders)
     ++ omap order_request (buy_orders orders),
     length (omap order_request orders)).
Proof.
  unfold run_orders. destruct orders as [|o l]; [done|].
  rewrite execute_all_recording. simpl app at 1. f_equal.
  - unfold sorted_orders. by rewrite omap_app.
  - simpl Nat.add.
    assert (omap order_request (sorted_orders (o :: l))
            ≡ₚ omap order_request (o :: l)) as ->; [|done].
    by rewrite sorted_orders_perm.
Qed.

(** ** Quantities carried by the orders *)

Section quantities.
Variable cur : gmap string PositionData.t.
Variable tgt : gmap string Q.
Variable mos : Q.
Local Open Scope Q_scope.

Lemma order_for_sell (s : string) (o : Order.t) :
  order_for cur tgt mos s = Some o -> Order.side o = sell ->
  o = Order.mk s sell (Some (sell_qty cur tgt s)) None
               (Some (current_value cur s))
  /\ 0 < sell_qty cur tgt s.
Proof.
  unfold order_for, sell_order, buy_order, notional_buy.
  destruct (skipped cur tgt mos s); [done|].
  destruct (Qltb 0 (difference cur tgt s)).
  - repeat case_match; intros; simplify_eq; done.
  - destruct (Qltb 0 (sell_qty cur tgt s)) eqn:Hq; [|done].
    intros [= <-] _. by apply Qltb_lt in Hq.
Qed.

Lemma order_for_buy (s : string) (o : Order.t) :
  order_for cur tgt mos s = Some o -> Order.side o = buy ->
  (exists q, o = Order.mk s buy (Some q) None None
             /\ 0 < q /\ decimal_places_le 3 q)
  \/ o = Order.mk s buy None (Some (round (difference cur tgt s) 2)) None.
Proof.
  unfold order_for, sell_order, buy_order, notional_buy.
  destruct (skipped cur tgt mos s); [done|].
  destruct (Qltb 0 (difference cur tgt s)).
  - intros [= <-] _.
    destruct (Qltb 0 (current_qty cur s) && Qltb 0 (current_value cur s));
      [|by right].
    destruct (Qltb 0 (current_value cur s / current_qty cur s)); [|by right].
    destruct (Qltb 0 (round _ 3)) eqn:Hq; [|by right].
    left. eexists. split; [done|]. split; [by apply Qltb_lt|].
    apply round_decimal_places.
  - destruct (Qltb 0 (sell_qty cur tgt s)); [|done]. by intros [= <-].
Qed.

(** On the partial-sell path the quantity never exceeds the holding. *)
Lemma partial_sell_qty_le (s : string) (tv : Q) :
  tgt !! s = Some tv -> ~ tv == 0 -> 0 < sell_qty cur tgt s ->
  sell_qty cur tgt s <= current_qty cur s.
Proof.
  intros Ht Hnz. unfold sell_qty, symbol_in_target, target_value.
  rewrite Ht. simpl.
  assert (Qeq_bool tv 0 = false) as ->.
  { apply not_true_iff_false. by rewrite Qeq_bool_iff. }
  destruct (Qltb 0 (current_value cur s)).
  - intros _. apply py_min_le_r.
  - intros H. by apply Qlt_irrefl in H.
Qed.

(** On every path the quantity exceeds the holding by at most half a
    thousandth of a share. *)
Lemma sell_qty_le (s : string) :
  0 < sell_qty cur tgt s -> sell_qty cur tgt s <= current_qty cur s + (1 # 2000).
Proof.
  pose proof (round_bounds (current_qty cur s) 3) as [Hlo _].
  change (1 # 2 * pow10 3) with (1 # 2000) in Hlo.
  unfold sell_qty.
  destruct (negb (symbol_in_target tgt s)); [intros _; lra|].
  destruct (Qeq_bool (target_value tgt s) 0); [intros _; lra|].
  destruct (Qltb 0 (current_value cur s)).
  - intros _. pose proof (py_min_le_r
      (round (current_qty cur s * (current_value cur s - target_value tgt s)
              / current_value cur s) 3) (current_qty cur s)). lra.
  - intros H. by apply Qlt_irrefl in H.
Qed.

(** What a sell of the result carries. *)
Lemma emitted_sell (o : Order.t) :
  o ∈ calculate_orders cur tgt mos -> Order.side o = sell ->
  exists q,
    Order.qty o = Some q /\ Order.notional o = None
    /\ 0 < q
    /\ q <= current_qty cur (Order.symbol o) + (1 # 2000)
    /\ (forall tv, tgt !! Order.symbol o = Some tv -> ~ tv == 0 ->
        q <= current_qty cur (Order.symbol o)).
Proof.
  intros Hin Hside. apply elem_of_calculate_orders in Hin.
  destruct (order_for_sell _ _ Hin Hside) as [Ho Hpos].
  exists (sell_qty cur tgt (Order.symbol o)).
  split; [by rewrite Ho at 1|]. split; [by rewrite Ho at 1|].
  split; [done|]. split; [by apply sell_qty_le|].
  intros tv Ht Hnz. by apply (partial_sell_qty_le _ tv).
Qed.

(** The decimal places of what an order of the result carries: a notional
    has at most two, a quantity at most three unless it is the holding that
    the clamp of the partial-sell path put in place of the rounded value. *)
Lemma emitted_decimal_places (o : Order.t) :
  o ∈ calculate_orders cur tgt mos ->
  (forall n, Order.notional o = Some n -> decimal_places_le 2 n)
  /\ (forall q, Order.qty o = Some q ->
      decimal_places_le 3 q
      \/ (Order.side o = sell /\ q = current_qty cur (Order.symbol o))).
Proof.
  intros Hin. apply elem_of_calculate_orders in Hin.
  destruct (Order.side o) eqn:Hside.
  - destruct (order_for_buy _ _ Hin Hside) as [(q & -> & _ & Hq)| ->]; simpl.
    + split; [done|]. intros ? [= <-]. by left.
    + split; [|done]. intros ? [= <-]. apply round_decimal_places.
  - destruct (order_for_sell _ _ Hin Hside) as [Ho _].
    set (s := Order.symbol o) in *. rewrite Ho. simpl.
    split; [done|]. intros ? [= <-]. unfold sell_qty.
    destruct (negb (symbol_in_target tgt s));
      [left; apply round_decimal_places|].
    destruct (Qeq_bool (target_value tgt s) 0);
      [left; apply round_decimal_places|].
    destruct (Qltb 0 (current_value cur s)).
    + unfold py_min. destruct (Qltb _ _); [by right|].
      left. apply round_decimal_places.
    + left. by exists 0%Z.
Qed.
End quantities.

(** A sell computed by calculate_orders is never refused by execute_order:
    its quantity is positive, so a request for it reaches the broker. *)
Lemma emitted_sell_requested (cur : gmap string PositionData.t)
    (tgt : gmap string Q) (mos : Q) (o : Order.t) :
  o ∈ calculate_orders cur tgt mos -> Order.side o = sell ->
  exists q,
    Order.qty o = Some q
    /\ order_request o
       = Some (MarketOrderRequest.mk (Order.symbol o) sell (Some q) None
                 (if is_crypto (Order.symbol o) then GTC else DAY)).
Proof.
  intros Hin Hside.
  destruct (emitted_sell _ _ _ _ Hin Hside) as (q & Hq & _ & Hpos & _).
  exists q. split; [done|].
  unfold order_request, execute_order. rewrite Hside, Hq. simpl.
  assert (Qle_bool q 0 = false) as ->; [|done].
  apply not_true_iff_false. rewrite Qle_bool_iff. by apply Qlt_not_le.
Qed.

(** ** Concrete runs *)

Section runs.
Local Open Scope Q_scope.
Local Open Scope string_scope.

(** C1 at a residual position.  0.0004 BTC worth 40 dollars is dropped from
    the target: the position is being closed (the code logs "closing full
    position"), but [round(0.0004, 3)] is zero, the test [sell_qty > 0]
    fails, and no instruction at all is computed: the residual position is
    kept, run after run, against the comment "Always close positions that
    should be zero". *)
Lemma full_close_dust_unsold :
  let cur : gmap string PositionData.t :=
    {["BTC/USD" := PositionData.mk (Some 40) (Some 0.0004)]} in
  let tgt : gmap string Q := ∅ in
  is_Some (cur !! "BTC/USD")
  /\ 0 < current_value cur "BTC/USD"
  /\ tgt !! "BTC/USD" = None
  /\ calculate_orders cur tgt 10 = []
  /\ ~ exists o,
        orders_of "BTC/USD" (calculate_orders cur tgt 10) = [o]
        /\ Order.side o = sell
        /\ Order.qty o = Some (round (current_qty cur "BTC/USD") 3).
Proof.
  split; [by eexists|]. split; [reflexivity|]. split; [reflexivity|].
  split; [by vm_compute|]. intros (o & Ho & _). by vm_compute in Ho.
Qed.

Lemma full_close_sell_witness :
  let cur : gmap string PositionData.t :=
    {["TSLA" := PositionData.mk (Some 800) (Some 4)]} in
  closing cur ∅ "TSLA"
  /\ 0 < round (current_qty cur "TSLA") 3
  /\ orders_of "TSLA" (calculate_orders cur ∅ 10)
     = [Order.mk "TSLA" sell (Some (round 4 3)) None (Some 800)].
Proof.
  assert (closing {["TSLA" := PositionData.mk (Some 800) (Some 4)]} ∅ "TSLA")
    as Hc by (split; [by left|reflexivity]).
  split; [exact Hc|]. split; [reflexivity|].
  apply (full_close_sell _ ∅ 10 "TSLA" Hc). reflexivity.
Defined.

Lemma dead_band_no_instruction_witness :
  let cur : gmap string PositionData.t :=
    {["AAPL" := PositionData.mk (Some 1000) (Some 5)]} in
  let tgt : gmap string Q := {["AAPL" := 1004]} in
  ~ closing cur tgt "AAPL"
  /\ Qabs (target_value tgt "AAPL" - current_value cur "AAPL") < 10
  /\ orders_of "AAPL" (calculate_orders cur tgt 10) = [].
Proof.
  assert (~ closing {["AAPL" := PositionData.mk (Some 1000) (Some 5)]}
                    {["AAPL" := 1004]} "AAPL") as Hnc.
  { intros [[Hnone|Hzero] _]; [done|]. by vm_compute in Hzero. }
  split; [exact Hnc|]. split; [reflexivity|].
  apply (dead_band_no_instruction _ _ 10 "AAPL" Hnc). reflexivity.
Defined.

Lemma buy_instruction_witness :
  let cur : gmap string PositionData.t :=
    {["AAPL" := PositionData.mk (Some 1000) (Some 5)]} in
  let tgt : gmap string Q := {["AAPL" := 1500]} in
  0 < target_value tgt "AAPL" - current_value cur "AAPL"
  /\ ~ (~ closing cur tgt "AAPL"
        /\ Qabs (target_value tgt "AAPL" - current_value cur "AAPL") < 10)
  /\ orders_of "AAPL" (calculate_orders cur tgt 10)
     = [Order.mk "AAPL" buy (Some (round ((1500 - 1000) / (1000 / 5)) 3))
                 None None].
Proof.
  assert (~ (~ closing {["AAPL" := PositionData.mk (Some 1000) (Some 5)]}
                       {["AAPL" := 1500]} "AAPL"
             /\ Qabs (target_value {["AAPL" := 1500]} "AAPL"
                      - current_value
                          {["AAPL" := PositionData.mk (Some 1000) (Some 5)]}
                          "AAPL") < 10)) as Hpass.
  { intros [_ Hsmall]. by vm_compute in Hsmall. }
  split; [reflexivity|]. split; [exact Hpass|].
  refine (proj1 (buy_instruction _ _ 10 "AAPL" _ Hpass) _).
  - reflexivity.
  - repeat split.
Defined.

Lemma matched_portfolio_no_orders_witness :
  let cur : gmap string PositionData.t :=
    {["AAPL" := PositionData.mk (Some 1500) (Some 7.5)]} in
  let tgt : gmap string Q := {["AAPL" := 1500]} in
  dom cur = dom tgt /\ calculate_orders cur tgt 10 = [].
Proof.
  assert (dom ({["AAPL" := PositionData.mk (Some 1500) (Some 7.5)]}
                 : gmap string PositionData.t)
          = dom ({["AAPL" := 1500]} : gmap string Q)) as Hdom
    by (by rewrite !dom_singleton_L).
  split; [exact Hdom|].
  apply matched_portfolio_no_orders; [reflexivity|exact Hdom|].
  intros s Hs. apply elem_of_dom in Hs as [entry Hs].
  apply lookup_singleton_Some in Hs as [<- _]. reflexivity.
Defined.

(** The fourth example of the specification: two spellings of SOL/USD. *)
Lemma aggregated_by_normalized_symbol_witness :
  let positions :=
    [Position.mk "SOLUSD" (Some 100) (Some 1);
     Position.mk "SOL/USD" (Some 50) (Some 0.5)] in
  get_current_positions (Some positions) !! "SOL/USD"
  = Some (PositionData.mk (Some (100 + 50)) (Some (1 + 0.5)))
  /\ exists value qty,
      PositionData.mk (Some (100 + 50)) (Some (1 + 0.5))
      = PositionData.mk (Some value) (Some qty)
      /\ value == 150 /\ qty == 1.5.
Proof.
  assert (get_current_positions
            (Some [Position.mk "SOLUSD" (Some 100) (Some 1);
                   Position.mk "SOL/USD" (Some 50) (Some 0.5)])
          !! "SOL/USD"
          = Some (PositionData.mk (Some (100 + 50)) (Some (1 + 0.5)))) as Hget
    by (by vm_compute).
  split; [exact Hget|].
  destruct (aggregated_by_normalized_symbol _ _ _ Hget)
    as (value & qty & Hentry & Hvalue & Hqty & _).
  exists value, qty. split; [done|]. split.
  - rewrite Hvalue. reflexivity.
  - rewrite Hqty. reflexivity.
Defined.

(** C8, counterexample.  "BTC-USD" and "BTC/USD" are distinct tickers of one
    allocation dict and both map to "BTC/USD"; the entry written last wins,
    so the symbol of the entry ("BTC-USD", 10) ends at 200 dollars, not at
    the 100 dollars that its percentage of the 1000 dollars of equity is. *)
Lemma target_overwritten_by_later_entry :
  let allocations := [("BTC-USD", 10); ("BTC/USD", 20)] in
  let crypto_mapping := Some CRYPTO_TICKER_MAPPING in
  NoDup allocations.*1
  /\ ("BTC-USD", 10) ∈ allocations
  /\ mapped_symbol crypto_mapping "BTC-USD" = "BTC/USD"
  /\ exists target,
      calculate_target_positions allocations 1000 crypto_mapping
      !! mapped_symbol crypto_mapping "BTC-USD" = Some target
      /\ target == 200
      /\ ~ target == 10 / 100 * 1000.
Proof.
  split; [by apply (bool_decide_unpack _); vm_compute|].
  split; [apply list_elem_of_here|]. split; [by vm_compute|].
  eexists. split; [by vm_compute|]. split; [reflexivity|].
  by intros H; vm_compute in H.
Qed.

Lemma target_of_last_entry_witness :
  let crypto_mapping := Some CRYPTO_TICKER_MAPPING in
  calculate_target_positions [("AAPL", 25); ("BTC-USD", 10); ("MSFT", -5)]
    2000 crypto_mapping
  !! "BTC/USD" = Some (10 / 100 * 2000).
Proof.
  refine (proj1 (target_of_last_entry 2000 (Some CRYPTO_TICKER_MAPPING)
                   [("AAPL", 25)] [("MSFT", -5)] "BTC-USD" 10 _)).
  constructor; [by vm_compute|constructor].
Defined.

(** C5, counterexample.  A position of 0.001 share worth one cent has a
    target of zero: current and target agree within 0.001 shares and 0.01
    dollars and have the same symbols, [min_order_size] is 10, and yet the
    position is closed by a sell of 0.001 share. *)
Lemma matched_within_tolerance_still_sells :
  let cur : gmap string PositionData.t :=
    {["AAPL" := PositionData.mk (Some 0.01) (Some 0.001)]} in
  let tgt : gmap string Q := {["AAPL" := 0]} in
  dom cur = dom tgt
  /\ (forall s, s ∈ dom cur ->
        Qabs (target_value tgt s - current_value cur s) <= 0.01)
  /\ Qabs (0 - current_qty cur "AAPL") <= 0.001
  /\ 0 < 10
  /\ calculate_orders cur tgt 10
     = [Order.mk "AAPL" sell (Some (round 0.001 3)) None (Some 0.01)]
  /\ calculate_orders cur tgt 10 <> [].
Proof.
  split; [by rewrite !dom_singleton_L|].
  split.
  { intros s Hs. apply elem_of_dom in Hs as [entry Hs].
    apply lookup_singleton_Some in Hs as [<- _]. by vm_compute. }
  split; [by vm_compute|]. split; [reflexivity|].
  split; [by vm_compute|]. by vm_compute.
Qed.

Lemma matched_within_tolerance_witness :
  let cur : gmap string PositionData.t :=
    {["AAPL" := PositionData.mk (Some 1500.004) (Some 7.5)]} in
  let tgt : gmap string Q := {["AAPL" := 1500]} in
  dom cur = dom tgt /\ 0.01 < 10 /\ calculate_orders cur tgt 10 = [].
Proof.
  assert (dom ({["AAPL" := PositionData.mk (Some 1500.004) (Some 7.5)]}
                 : gmap string PositionData.t)
          = dom ({["AAPL" := 1500]} : gmap string Q)) as Hdom
    by (by rewrite !dom_singleton_L).
  assert (0.01 < 10) as Htol by reflexivity.
  split; [exact Hdom|]. split; [exact Htol|].
  apply (matched_within_tolerance _ _ 10 0.01 Hdom); [|exact Htol|].
  - intros s Hs. apply elem_of_dom in Hs as [entry Hs].
    apply lookup_singleton_Some in Hs as [<- _]. by vm_compute.
  - intros s Hz. destruct (decide (s = "AAPL")) as [->|Hne].
    + by vm_compute in Hz.
    + unfold current_value. rewrite lookup_singleton_ne by done.
      by vm_compute.
Defined.

(** C3 on the full-close path.  A position of 0.0019 BTC worth 190 dollars is
    dropped from the target: the one instruction computed sells
    [round(0.0019, 3)], that is 0.002 BTC, more than the 0.0019 held. *)
Theorem full_close_sells_more_than_held :
  let cur : gmap string PositionData.t :=
    {["BTC/USD" := PositionData.mk (Some 190) (Some 0.0019)]} in
  exists qty,
    calculate_orders cur ∅ 10
    = [Order.mk "BTC/USD" sell (Some qty) None (Some 190)]
    /\ qty == 0.002
    /\ current_qty cur "BTC/USD" < qty.
Proof. eexists. split; [by vm_compute|]. split; reflexivity. Qed.

(** C9 on the partial-sell path.  A position of 0.0019 BTC worth 190 dollars
    has a target of 19 dollars: the rounded quantity, 0.002, exceeds the
    holding, [min] replaces it by the holding itself, and the instruction
    carries 0.0019, a quantity with four decimal places. *)
Theorem clamped_sell_not_rounded :
  let cur : gmap string PositionData.t :=
    {["BTC/USD" := PositionData.mk (Some 190) (Some 0.0019)]} in
  let tgt : gmap string Q := {["BTC/USD" := 19]} in
  exists qty,
    calculate_orders cur tgt 10
    = [Order.mk "BTC/USD" sell (Some qty) None (Some 190)]
    /\ qty == 0.0019
    /\ ~ decimal_places_le 3 qty.
Proof.
  eexists. split; [by vm_compute|]. split; [reflexivity|].
  intros [z Hz]. unfold Qeq in Hz. simpl in Hz. lia.
Qed.
End runs.

(** ** Further properties of calculate_orders *)

Section further_calculate_orders.
Variable cur : gmap string PositionData.t.
Variable tgt : gmap string Q.
Local Open Scope Q_scope.

Lemma round_half_even_nonpos (x : Q) :
  x <= 0 -> (round_half_even x <= 0)%Z.
Proof.
  destruct x as [n d]. unfold Qle, round_half_even. cbn [Qnum Qden].
  intros Hn.
  pose proof (Z.div_mod n (Zpos d) ltac:(lia)) as Hdm.
  pose proof (Z.mod_pos_bound n (Zpos d) ltac:(lia)) as Hr.
  set (f := (n / Zpos d)%Z) in *. set (r := (n mod Zpos d)%Z) in *.
  assert (f <= 0)%Z as Hf by nia.
  destruct (Z.compare_spec (2 * r) (Zpos d)) as [He|Hl|Hg].
  - destruct (Z.even f); nia.
  - done.
  - nia.
Qed.

Lemma round_pos_inv (x : Q) (n : nat) : 0 < round x n -> 0 < x.
Proof.
  intros Hpos. apply Qnot_le_lt. intros Hx.
  assert (x * inject_Z (Zpos (pow10 n)) <= 0) as Hxp.
  { destruct x as [a b]. unfold Qle, Qmult, inject_Z in *.
    cbn [Qnum Qden] in *. nia. }
  apply round_half_even_nonpos in Hxp.
  unfold round, Qlt in Hpos. cbn [Qnum Qden] in Hpos. lia.
Qed.

Lemma sell_qty_pos_inv (s : string) :
  0 < sell_qty cur tgt s -> 0 < current_qty cur s.
Proof.
  unfold sell_qty.
  destruct (negb (symbol_in_target tgt s)); [apply round_pos_inv|].
  destruct (Qeq_bool (target_value tgt s) 0); [apply round_pos_inv|].
  destruct (Qltb 0 (current_value cur s)).
  - intros H. eapply Qlt_le_trans; [exact H|apply py_min_le_r].
  - done.
Qed.

Lemma order_for_direction (mos : Q) (s : string) (o : Order.t) :
  order_for cur tgt mos s = Some o ->
  if decide (Order.side o = buy)
  then 0 < difference cur tgt s else difference cur tgt s <= 0.
Proof.
  unfold order_for. destruct (skipped cur tgt mos s); [done|].
  destruct (Qltb 0 (difference cur tgt s)) eqn:Hd.
  - intros [= <-]. apply Qltb_lt in Hd.
    unfold buy_order, notional_buy. by repeat case_match.
  - apply Qltb_ge in Hd. unfold sell_order.
    destruct (Qltb 0 (sell_qty cur tgt s)); [|done]. by intros [= <-].
Qed.

(** X1.  The order in which the loop visits the symbols does not change what
    is computed: run over any enumeration of the union of the two key sets
    without repetition, the loop yields a rearrangement of the same list of
    instructions. *)
Theorem calculate_orders_enumeration (mos : Q) (enumeration : list string) :
  NoDup enumeration ->
  (forall s, s ∈ enumeration <-> s ∈ all_symbols cur tgt) ->
  calculate_orders_on cur tgt mos enumeration ≡ₚ calculate_orders cur tgt mos.
Proof.
  intros Hnd Hall. unfold calculate_orders.
  rewrite !calculate_orders_on_omap.
  apply omap_Permutation, NoDup_Permutation; [done|apply NoDup_elements|].
  intros s. by rewrite Hall, elem_of_elements.
Qed.

Lemma emitted_shape (mos : Q) (o : Order.t) :
  o ∈ calculate_orders cur tgt mos ->
  match Order.side o with
  | sell =>
      (exists q, Order.qty o = Some q /\ 0 < q)
      /\ Order.notional o = None
      /\ Order.current_position_value o
         = Some (current_value cur (Order.symbol o))
  | buy =>
      Order.current_position_value o = None
      /\ ((exists q, Order.qty o = Some q /\ 0 < q)
          /\ Order.notional o = None
          \/ Order.qty o = None /\ is_Some (Order.notional o))
  end.
Proof.
  intros Hin. apply elem_of_calculate_orders in Hin.
  destruct (Order.side o) eqn:Hside.
  - destruct (order_for_buy _ _ _ _ _ Hin Hside) as [(q & -> & Hq & _)| ->];
      simpl; (split; [done|]); [left|right]; eauto.
  - destruct (order_for_sell _ _ _ _ _ Hin Hside) as [Ho Hpos].
    set (s := Order.symbol o) in *. rewrite Ho. simpl.
    split; [eauto|done].
Qed.

(** X2.  The keys an instruction carries.  Its symbol is a key of the
    current or of the target positions.  A sell carries a positive quantity,
    the value of the position it sells, and no notional.  A buy carries
    either a positive quantity or a notional, never both, and no position
    value. *)
Theorem instruction_shape (mos : Q) (o : Order.t) :
  o ∈ calculate_orders cur tgt mos ->
  Order.symbol o ∈ all_symbols cur tgt
  /\ match Order.side o with
     | sell =>
         (exists q, Order.qty o = Some q /\ 0 < q)
         /\ Order.notional o = None
         /\ Order.current_position_value o
            = Some (current_value cur (Order.symbol o))
     | buy =>
         Order.current_position_value o = None
         /\ ((exists q, Order.qty o = Some q /\ 0 < q)
             /\ Order.notional o = None
             \/ Order.qty o = None /\ is_Some (Order.notional o))
     end.
Proof.
  intros Hin. split; [|by apply (emitted_shape mos)].
  apply elem_of_calculate_orders in Hin.
  destruct (decide (Order.symbol o ∈ all_symbols cur tgt)) as [|Hout];
    [done|]. by rewrite (order_for_outside _ _ _ _ Hout) in Hin.
Qed.

(** X3.  The side follows the sign of the difference, and nothing is sold
    that is not held: a buy is computed only for a symbol whose target value
    exceeds its current value; a sell only for a symbol that has an entry in
    the current positions with a positive quantity and whose target value
    does not exceed its current value. *)
Theorem instruction_direction (mos : Q) (o : Order.t) :
  o ∈ calculate_orders cur tgt mos ->
  match Order.side o with
  | buy => current_value cur (Order.symbol o) < target_value tgt (Order.symbol o)
  | sell =>
      target_value tgt (Order.symbol o) <= current_value cur (Order.symbol o)
      /\ 0 < current_qty cur (Order.symbol o)
      /\ is_Some (cur !! Order.symbol o)
  end.
Proof.
  intros Hin. apply elem_of_calculate_orders in Hin.
  pose proof (order_for_direction _ _ _ Hin) as Hdir.
  unfold difference in Hdir.
  destruct (Order.side o) eqn:Hside.
  - rewrite decide_True in Hdir by done. lra.
  - rewrite decide_False in Hdir by done. split; [lra|].
    destruct (order_for_sell _ _ _ _ _ Hin Hside) as [_ Hpos].
    apply sell_qty_pos_inv in Hpos. split; [done|].
    destruct (cur !! Order.symbol o) eqn:Hc; [by eexists|].
    unfold current_qty in Hpos. rewrite Hc in Hpos. by simpl in Hpos.
Qed.

(** X4.  How far a sell can exceed the holding: the quantity of a computed
    sell is at most the quantity held plus half a thousandth of a share, and
    at most the quantity held when the symbol has a non-zero target (the
    partial-sell path, which clamps). *)
Theorem sell_quantity_bound (mos : Q) (o : Order.t) :
  o ∈ calculate_orders cur tgt mos -> Order.side o = sell ->
  exists q,
    Order.qty o = Some q
    /\ q <= current_qty cur (Order.symbol o) + (1 # 2000)
    /\ (forall tv, tgt !! Order.symbol o = Some tv -> ~ tv == 0 ->
        q <= current_qty cur (Order.symbol o)).
Proof.
  intros Hin Hside.
  destruct (emitted_sell _ _ _ _ Hin Hside) as (q & Hq & _ & _ & Hle & Hpart).
  eauto.
Qed.

(** X5.  Decimal places of what is carried: every notional of a computed
    instruction has at most two, and every quantity has at most three unless
    it is the quantity of a sell that equals the whole holding (the clamp of
    the partial-sell path hands the holding over unrounded). *)
Theorem carried_decimal_places (mos : Q) (o : Order.t) :
  o ∈ calculate_orders cur tgt mos ->
  (forall n, Order.notional o = Some n -> decimal_places_le 2 n)
  /\ (forall q, Order.qty o = Some q ->
      decimal_places_le 3 q
      \/ (Order.side o = sell /\ q = current_qty cur (Order.symbol o))).
Proof. apply emitted_decimal_places. Qed.

(** X6.  Raising [min_order_size] only removes instructions: the list
    computed with a larger threshold is a sublist of the list computed with
    a smaller one, with the same instructions in the same order. *)
Theorem min_order_size_monotone (mos mos' : Q) :
  mos <= mos' ->
  calculate_orders cur tgt mos' `sublist_of` calculate_orders cur tgt mos.
Proof.
  intros Hle. unfold calculate_orders. rewrite !calculate_orders_on_omap.
  induction (elements (all_symbols cur tgt)) as [|s l IH]; [done|].
  rewrite !omap_cons_eq.
  assert (order_for cur tgt mos' s = None
          \/ order_for cur tgt mos' s = order_for cur tgt mos s) as [->| ->].
  { unfold order_for.
    destruct (skipped cur tgt mos' s) eqn:Hs'; [by left|right].
    assert (skipped cur tgt mos s = false) as ->; [|done].
    apply not_true_iff_false. intros [Hnc Hlt]%skipped_spec.
    apply not_true_iff_false in Hs'. apply Hs', skipped_spec.
    split; [done|]. lra. }
  - destruct (order_for cur tgt mos s); [by apply sublist_cons|done].
  - destruct (order_for cur tgt mos s); [by apply sublist_skip|done].
Qed.
End further_calculate_orders.

(** ** Further properties of execute_order and of the execution loop *)

Section further_execution.
Local Open Scope Q_scope.

Lemma round_half_even_integer (x : Q) (z : Z) :
  x == inject_Z z -> round_half_even x = z.
Proof.
  destruct x as [a b]. unfold Qeq, round_half_even, inject_Z.
  cbn [Qnum Qden]. intros Ha.
  assert (a = z * Zpos b)%Z as -> by lia.
  rewrite Z.div_mul, Z.mod_mul by lia. simpl. reflexivity.
Qed.

(** Rounding a value that already has at most [n] decimal places gives the
    value back. *)
Lemma round_of_decimal (q : Q) (n : nat) :
  decimal_places_le n q -> round q n == q.
Proof.
  intros [z Hz]. unfold round.
  rewrite (round_half_even_integer _ z); [by rewrite Hz|].
  rewrite Hz. unfold Qeq, Qmult, inject_Z. cbn [Qnum Qden]. lia.
Qed.

Lemma round_half_even_nonneg (x : Q) :
  0 <= x -> (0 <= round_half_even x)%Z.
Proof.
  destruct x as [n d]. unfold Qle, round_half_even. cbn [Qnum Qden].
  intros Hn.
  pose proof (Z.div_mod n (Zpos d) ltac:(lia)) as Hdm.
  pose proof (Z.mod_pos_bound n (Zpos d) ltac:(lia)) as Hr.
  set (f := (n / Zpos d)%Z) in *. set (r := (n mod Zpos d)%Z) in *.
  assert (0 <= f)%Z as Hf by nia.
  destruct (Z.compare_spec (2 * r) (Zpos d)); [destruct (Z.even f)|..]; lia.
Qed.

Lemma round_nonneg (x : Q) (n : nat) : 0 <= x -> 0 <= round x n.
Proof.
  intros Hx.
  assert (0 <= x * inject_Z (Zpos (pow10 n))) as Hxp.
  { destruct x as [a b]. unfold Qle, Qmult, inject_Z in *.
    cbn [Qnum Qden] in *. nia. }
  apply round_half_even_nonneg in Hxp.
  unfold round, Qle. cbn [Qnum Qden]. lia.
Qed.

Section any_broker.
Variable TradingClient : Type.
Variable submit_order :
  TradingClient -> MarketOrderRequest.t -> TradingClient * bool.

(** X7.  What execute_order does with one order, whatever the broker: either
    it refuses the order without calling the broker and reports failure (a
    sell whose quantity is missing or not positive; a buy without a positive
    quantity whose notional, rounded to cents, is not positive), or it makes
    exactly one call, for the order's symbol and side, good-till-cancelled
    for a crypto symbol and day otherwise, carrying a positive quantity for
    a sell and, for a buy, either a quantity rounded to three places or a
    positive notional rounded to two, never both. *)
Theorem execute_order_cases (client : TradingClient) (o : Order.t) :
  let qty := default 0 (Order.qty o) in
  let notional := round (default 0 (Order.notional o)) 2 in
  (execute_order TradingClient submit_order client o = (client, false)
   /\ match Order.side o with
      | sell => qty <= 0
      | buy => qty <= 0 /\ notional <= 0
      end)
  \/ exists request,
      execute_order TradingClient submit_order client o
      = submit_order client request
      /\ MarketOrderRequest.symbol request = Order.symbol o
      /\ MarketOrderRequest.side request = Order.side o
      /\ MarketOrderRequest.time_in_force request
         = (if is_crypto (Order.symbol o) then GTC else DAY)
      /\ match Order.side o with
         | sell =>
             0 < qty
             /\ MarketOrderRequest.qty request = Some qty
             /\ MarketOrderRequest.notional request = None
         | buy =>
             (0 < qty
              /\ MarketOrderRequest.qty request = Some (round qty 3)
              /\ MarketOrderRequest.notional request = None)
             \/ (qty <= 0 /\ 0 < notional
                 /\ MarketOrderRequest.qty request = None
                 /\ MarketOrderRequest.notional request = Some notional)
         end.
Proof.
  intros qty notional. unfold execute_order. fold qty. fold notional.
  destruct (Order.side o).
  - destruct (Qltb 0 qty) eqn:Hq.
    + apply Qltb_lt in Hq. right. eexists. repeat split; simpl; eauto.
    + apply Qltb_ge in Hq. destruct (Qle_bool notional 0) eqn:Hn.
      * apply Qle_bool_iff in Hn. by left.
      * right. eexists. repeat split; simpl. right. repeat split; [done|].
        apply Qnot_le_lt. intros Hle. apply Qle_bool_iff in Hle. congruence.
  - destruct (Qle_bool qty 0) eqn:Hq.
    + apply Qle_bool_iff in Hq. by left.
    + right. eexists. repeat split; simpl.
      apply Qnot_le_lt. intros Hle. apply Qle_bool_iff in Hle. congruence.
Qed.

(** X8.  [success_count] never exceeds the number of computed orders. *)
Theorem success_count_le (client : TradingClient) (orders : list Order.t)
    (dry_run : bool) :
  (snd (run_orders TradingClient submit_order client orders dry_run)
   <= length orders)%nat.
Proof.
  assert (forall l state,
    (snd (execute_all TradingClient submit_order l state)
     <= snd state + length l)%nat) as Hall.
  { induction l as [|o l IH]; intros [c n]; simpl; [lia|].
    unfold execute_all in *. simpl.
    destruct (execute_order TradingClient submit_order c o) as [c' ok].
    specialize (IH (c', if ok then S n else n)). simpl in IH.
    destruct ok; lia. }
  unfold run_orders. destruct orders as [|o l]; [simpl; lia|].
  destruct dry_run; [simpl; lia|].
  specialize (Hall (sorted_orders (o :: l)) (client, 0%nat)).
  rewrite (Permutation_length (sorted_orders_perm (o :: l))) in Hall.
  simpl in *. lia.
Qed.

(** X9.  Computed instructions go to the broker as computed.  For every
    instruction of calculate_orders, execute_order either calls the broker
    once with the instruction's symbol, side, quantity and notional (equal
    as numbers: the second rounding changes nothing), or the instruction is
    a buy by notional whose amount is not positive, which it refuses. *)
Theorem computed_order_submitted (cur : gmap string PositionData.t)
    (tgt : gmap string Q) (mos : Q) (client : TradingClient) (o : Order.t) :
  o ∈ calculate_orders cur tgt mos ->
  (exists request,
      execute_order TradingClient submit_order client o
      = submit_order client request
      /\ MarketOrderRequest.symbol request = Order.symbol o
      /\ MarketOrderRequest.side request = Order.side o
      /\ option_Forall2 Qeq (MarketOrderRequest.qty request) (Order.qty o)
      /\ option_Forall2 Qeq (MarketOrderRequest.notional request)
           (Order.notional o))
  \/ (execute_order TradingClient submit_order client o = (client, false)
      /\ Order.side o = buy /\ Order.qty o = None
      /\ exists n, Order.notional o = Some n /\ n <= 0).
Proof.
  intros Hin.
  pose proof (emitted_decimal_places _ _ _ _ Hin) as [Hnot Hqty].
  apply elem_of_calculate_orders in Hin.
  set (s := Order.symbol o) in *.
  destruct (Order.side o) eqn:Hside.
  - destruct (order_for_buy _ _ _ _ _ Hin Hside) as [(q & Ho & Hq & Hdec)|Ho];
      rewrite Ho in Hnot, Hqty |- *; unfold execute_order; simpl.
    + rewrite (proj2 (Qltb_lt _ _) Hq). left. eexists.
      split; [done|]. simpl. split; [done|]. split; [done|].
      split; constructor. by apply round_of_decimal.
    + set (n := round (difference cur tgt s) 2) in *.
      change (Qltb 0 0) with false. cbv iota.
      assert (round n 2 == n) as Hn by (apply round_of_decimal; by apply Hnot).
      destruct (Qle_bool (round n 2) 0) eqn:Hle.
      * right. apply Qle_bool_iff in Hle. rewrite Hn in Hle.
        split; [done|]. split; [done|]. split; [done|]. by exists n.
      * left. eexists. split; [done|]. simpl.
        split; [done|]. split; [done|]. split; by constructor.
  - destruct (order_for_sell _ _ _ _ _ Hin Hside) as [Ho Hpos].
    rewrite Ho. unfold execute_order. simpl.
    assert (Qle_bool (sell_qty cur tgt s) 0 = false) as ->.
    { apply not_true_iff_false. rewrite Qle_bool_iff. by apply Qlt_not_le. }
    left. eexists. split; [done|]. simpl.
    split; [done|]. split; [done|]. split; by constructor.
Qed.
End any_broker.

(** X10.  Seen from a broker that records and accepts every request, a run
    that is not a dry run leaves in the log the requests of the sells, in
    their computed order, followed by the requests of the buys, and counts
    one success per request. *)
Theorem recorded_requests (orders : list Order.t) :
  run_orders _ recording_submit [] orders false
  = (omap order_request (sell_orders orders)
     ++ omap order_request (buy_orders orders),
     length (omap order_request orders)).
Proof. apply run_orders_recording. Qed.
End further_execution.

(** ** Further properties of the symbol tables and of normalize_symbol *)

Section further_symbols.
Local Open Scope string_scope.

Lemma SYMBOL_NORMALIZATION_lookup (k v : string) :
  SYMBOL_NORMALIZATION !! k = Some v ->
  (k = "BTCUSD" \/ k = "BTC-USD") /\ v = "BTC/USD"
  \/ (k = "SOLUSD" \/ k = "SOL-USD") /\ v = "SOL/USD".
Proof.
  unfold SYMBOL_NORMALIZATION. simpl.
  rewrite !lookup_insert_Some, lookup_empty. intuition (subst; auto; done).
Qed.

Lemma CRYPTO_TICKER_MAPPING_lookup (k v : string) :
  CRYPTO_TICKER_MAPPING !! k = Some v ->
  k = "BTC-USD" /\ v = "BTC/USD" \/ k = "SOL-USD" /\ v = "SOL/USD".
Proof.
  unfold CRYPTO_TICKER_MAPPING. simpl.
  rewrite !lookup_insert_Some, lookup_empty. intuition (subst; auto; done).
Qed.

Lemma normalize_symbol_cases (symbol : string) :
  normalize_symbol symbol = symbol
  \/ (upper symbol = "BTCUSD" \/ upper symbol = "BTC-USD")
     /\ normalize_symbol symbol = "BTC/USD"
  \/ (upper symbol = "SOLUSD" \/ upper symbol = "SOL-USD")
     /\ normalize_symbol symbol = "SOL/USD".
Proof.
  unfold normalize_symbol.
  destruct (SYMBOL_NORMALIZATION !! upper symbol) as [v|] eqn:Hv; [|by left].
  apply SYMBOL_NORMALIZATION_lookup in Hv as [[Hk ->]|[Hk ->]]; simpl; tauto.
Qed.

Lemma normalize_symbol_twice (symbol : string) :
  normalize_symbol (normalize_symbol symbol) = normalize_symbol symbol.
Proof.
  by destruct (normalize_symbol_cases symbol) as [H|[[_ H]|[_ H]]]; rewrite !H.
Qed.

(** X11.  normalize_symbol is idempotent, and it either keeps the symbol or
    returns one of the two canonical crypto symbols. *)
Theorem normalize_symbol_idempotent (symbol : string) :
  normalize_symbol (normalize_symbol symbol) = normalize_symbol symbol
  /\ (normalize_symbol symbol = symbol
      \/ normalize_symbol symbol = "BTC/USD"
      \/ normalize_symbol symbol = "SOL/USD").
Proof.
  split; [apply normalize_symbol_twice|].
  destruct (normalize_symbol_cases symbol) as [H|[[_ H]|[_ H]]]; tauto.
Qed.

(** X12.  The tables agree with each other.  The crypto ticker mapping lands
    on symbols that normalization leaves alone and that normalize like the
    ticker itself, so a mapped target and the aggregated position of the
    same asset meet under one key; and whatever spelling normalization or
    the ticker mapping rewrites is classified as crypto, before and after. *)
Theorem symbol_tables_consistent (symbol : string) :
  let mapped := mapped_symbol (Some CRYPTO_TICKER_MAPPING) symbol in
  normalize_symbol mapped = normalize_symbol symbol
  /\ (mapped <> symbol -> normalize_symbol mapped = mapped)
  /\ (mapped <> symbol ->
      is_crypto symbol = true /\ is_crypto mapped = true)
  /\ (normalize_symbol symbol <> symbol ->
      is_crypto symbol = true
      /\ is_crypto (normalize_symbol symbol) = true).
Proof.
  intros mapped. unfold mapped, mapped_symbol. simpl.
  split; [|split; [|split]].
  - destruct (CRYPTO_TICKER_MAPPING !! symbol) as [v|] eqn:Hv; [|done].
    by apply CRYPTO_TICKER_MAPPING_lookup in Hv as [[-> ->]|[-> ->]].
  - destruct (CRYPTO_TICKER_MAPPING !! symbol) as [v|] eqn:Hv; [|done].
    by apply CRYPTO_TICKER_MAPPING_lookup in Hv as [[-> ->]|[-> ->]].
  - destruct (CRYPTO_TICKER_MAPPING !! symbol) as [v|] eqn:Hv; [|done].
    by apply CRYPTO_TICKER_MAPPING_lookup in Hv as [[-> ->]|[-> ->]].
  - intros Hne. unfold is_crypto.
    destruct (normalize_symbol_cases symbol) as [H|[[Hu H]|[Hu H]]];
      [done|..]; rewrite H; destruct Hu as [Hu|Hu]; rewrite Hu;
      (split; [apply orb_true_r|done]).
Qed.
End further_symbols.

(** ** Further properties of get_current_positions *)

Section further_positions.
Local Open Scope Q_scope.

Lemma add_position_converted (m : gmap string PositionData.t)
    (pos : Position.t) :
  complete m -> converted pos -> is_Some (add_position m pos).
Proof.
  intros Hm [[mv Hmv] [q Hq]]. unfold add_position. rewrite Hmv, Hq. simpl.
  destruct (m !! normalize_symbol (Position.symbol pos)) as [entry|] eqn:He;
    [|by eexists].
  destruct (Hm _ _ He) as [[v ->] [q' ->]]. simpl. by eexists.
Qed.

Lemma aggregate_converted (l : list Position.t)
    (m : gmap string PositionData.t) :
  complete m -> Forall converted l -> is_Some (aggregate l m).
Proof.
  intros Hm Hl. revert m Hm.
  induction Hl as [|pos l Hpos _ IH]; intros m Hm; [by eexists|]. simpl.
  destruct (add_position_converted m pos Hm Hpos) as [m1 Hm1].
  rewrite Hm1. simpl. apply IH.
  by destruct (add_position_spec _ _ _ Hm1 Hm) as (? & ? & _ & _ & ? & _).
Qed.

Lemma complete_empty : complete ∅.
Proof. intros ? ?. by rewrite lookup_empty. Qed.

Lemma get_current_positions_dom (positions : list Position.t) :
  dom (get_current_positions (Some positions))
  ⊆ list_to_set
      ((fun pos => normalize_symbol (Position.symbol pos)) <$> positions).
Proof.
  unfold get_current_positions.
  destruct (aggregate positions ∅) as [m|] eqn:Hagg; simpl.
  - destruct (aggregate_spec _ _ _ Hagg complete_empty) as (_ & _ & -> & _).
    rewrite dom_empty_L. intros x. rewrite elem_of_union, elem_of_empty. tauto.
  - rewrite dom_empty_L. intros x. by rewrite elem_of_empty.
Qed.

(** X13.  When every raw position converts, the keys of the result are
    exactly the normalized symbols of the raw positions: no position is
    lost and no key is invented. *)
Theorem positions_keys (positions : list Position.t) :
  Forall converted positions ->
  dom (get_current_positions (Some positions))
  = list_to_set
      ((fun pos => normalize_symbol (Position.symbol pos)) <$> positions).
Proof.
  intros Hall. unfold get_current_positions.
  destruct (aggregate_converted positions ∅ complete_empty Hall) as [m Hagg].
  rewrite Hagg. simpl.
  destruct (aggregate_spec _ _ _ Hagg complete_empty) as (_ & _ & -> & _).
  by rewrite dom_empty_L, (left_id_L ∅ (∪)).
Qed.

(** X14.  One raw position whose market value or quantity does not convert
    makes the whole result empty: the positions that did convert are
    dropped with it. *)
Theorem positions_lost_on_error (positions : list Position.t) :
  ~ Forall converted positions ->
  get_current_positions (Some positions) = ∅.
Proof. apply get_current_positions_error. Qed.

(** X15.  Every key of the result, whatever the broker returned, is a fixed
    point of normalize_symbol: no asset appears in the result under two
    spellings that normalize to one. *)
Theorem position_keys_normalized (positions : option (list Position.t))
    (s : string) :
  s ∈ dom (get_current_positions positions) -> normalize_symbol s = s.
Proof.
  destruct positions as [positions|];
    [|simpl; by rewrite dom_empty_L, elem_of_empty].
  intros Hs. apply get_current_positions_dom in Hs.
  apply elem_of_list_to_set, list_elem_of_fmap in Hs as (pos & -> & _).
  apply normalize_symbol_twice.
Qed.
End further_positions.

(** ** Further properties of calculate_target_positions *)

Section further_targets.
Variable account_equity : Q.
Variable crypto_mapping : option (gmap string string).
Local Open Scope Q_scope.

Lemma Qsum_Permutation (l l' : list Q) : l ≡ₚ l' -> Qsum l == Qsum l'.
Proof.
  induction 1 as [|x l l' _ IH|x y l|l l' l'' _ IH1 _ IH2]; simpl.
  - reflexivity.
  - by rewrite IH.
  - ring.
  - by rewrite IH1.
Qed.

Lemma Qsum_scaled (l : list Q) :
  Qsum ((fun p => p / 100 * account_equity) <$> l)
  == Qsum l / 100 * account_equity.
Proof.
  induction l as [|p l IH]; simpl.
  - unfold Qdiv. ring.
  - rewrite IH. unfold Qdiv. ring.
Qed.

Lemma calculate_target_positions_list_to_map (allocations : list (string * Q)) :
  NoDup (mapped_symbol crypto_mapping <$> allocations.*1) ->
  calculate_target_positions allocations account_equity crypto_mapping
  = list_to_map
      ((fun e => (mapped_symbol crypto_mapping e.1, e.2 / 100 * account_equity))
       <$> allocations).
Proof.
  induction allocations as [|[asset pct] l IH] using rev_ind; [done|].
  rewrite !fmap_app. simpl. intros Hnd.
  apply NoDup_app in Hnd as (Hl & Hfresh & _).
  rewrite calculate_target_positions_snoc, IH by done.
  rewrite list_to_map_snoc; [done|].
  rewrite <- list_fmap_compose. intros Hin.
  apply list_elem_of_fmap in Hin as ([a p] & Heq & Hin). simpl in Heq.
  apply (Hfresh (mapped_symbol crypto_mapping asset)).
  - rewrite <- list_fmap_compose. apply list_elem_of_fmap.
    exists (a, p). by split.
  - apply list_elem_of_here.
Qed.

(** X16.  The keys of the result are exactly the trading symbols of the
    allocation's tickers: a symbol has a target if and only if some entry of
    the allocation maps to it. *)
Theorem target_keys (allocations : list (string * Q)) (symbol : string) :
  is_Some (calculate_target_positions allocations account_equity
             crypto_mapping !! symbol)
  <-> exists ticker percentage,
        (ticker, percentage) ∈ allocations
        /\ mapped_symbol crypto_mapping ticker = symbol.
Proof.
  rewrite <- elem_of_dom, calculate_target_positions_dom.
  rewrite elem_of_list_to_set, <- list_fmap_compose, list_elem_of_fmap.
  split.
  - intros ([ticker pct] & -> & Hin). by exists ticker, pct.
  - intros (ticker & pct & Hin & <-). by exists (ticker, pct).
Qed.

(** X17.  When no two tickers of the allocation share a trading symbol, the
    target values add up to the sum of the percentages, divided by 100,
    times the account equity; with percentages that sum to 100 the targets
    add up to the equity. *)
Theorem target_total (allocations : list (string * Q)) :
  NoDup (mapped_symbol crypto_mapping <$> allocations.*1) ->
  Qsum (map_to_list
          (calculate_target_positions allocations account_equity
             crypto_mapping)).*2
  == Qsum allocations.*2 / 100 * account_equity.
Proof.
  intros Hnd. rewrite calculate_target_positions_list_to_map by done.
  rewrite <- Qsum_scaled. apply Qsum_Permutation.
  rewrite map_to_list_to_map.
  - by rewrite <- !list_fmap_compose.
  - by rewrite <- !list_fmap_compose in *.
Qed.
End further_targets.

(** ** calculate_orders without positions *)

Section no_positions.
Local Open Scope Q_scope.

Lemma orders_without_positions (tgt : gmap string Q) (mos : Q)
    (o : Order.t) :
  o ∈ calculate_orders ∅ tgt mos ->
  o = Order.mk (Order.symbol o) buy None
        (Some (round (target_value tgt (Order.symbol o) - 0) 2)) None
  /\ 0 < target_value tgt (Order.symbol o)
  /\ mos <= target_value tgt (Order.symbol o).
Proof.
  intros Hin. apply elem_of_calculate_orders in Hin.
  set (s := Order.symbol o) in *. revert Hin.
  assert (current_value ∅ s = 0) as Hv
    by (unfold current_value; by rewrite lookup_empty).
  assert (current_qty ∅ s = 0) as Hq
    by (unfold current_qty; by rewrite lookup_empty).
  unfold order_for, skipped, should_close_position, buy_order, notional_buy,
    sell_order, sell_qty, difference.
  rewrite !Hv, !Hq. change (Qltb 0 0) with false.
  rewrite andb_false_r. cbn [negb andb].
  destruct (Qltb (Qabs (target_value tgt s - 0)) mos) eqn:Hmos; [done|].
  apply Qltb_ge in Hmos.
  destruct (Qltb 0 (target_value tgt s - 0)) eqn:Hpos.
  - apply Qltb_lt in Hpos. intros [= Ho]. split; [done|].
    rewrite Qabs_pos in Hmos by lra. split; lra.
  - destruct (negb (symbol_in_target tgt s)); [done|].
    by destruct (Qeq_bool (target_value tgt s) 0).
Qed.

(** X18.  With no current positions (a fresh account, or a position query
    that failed and returned the empty dict) nothing is sold and no share
    quantity is inferred: every instruction is a buy by notional, of the
    target value rounded to cents, for a symbol whose target is positive and
    not below [min_order_size]. *)
Theorem no_positions_only_notional_buys (tgt : gmap string Q) (mos : Q)
    (o : Order.t) :
  o ∈ calculate_orders ∅ tgt mos ->
  o = Order.mk (Order.symbol o) buy None
        (Some (round (target_value tgt (Order.symbol o) - 0) 2)) None
  /\ 0 < target_value tgt (Order.symbol o)
  /\ mos <= target_value tgt (Order.symbol o).
Proof. apply orders_without_positions. Qed.
End no_positions.

(** ** get_alpaca_client *)

Section credentials.
Local Open Scope string_scope.

Lemma starts_with_spec (needle s : string) :
  starts_with needle s = true <-> exists post, s = needle ++ post.
Proof.
  revert s. induction needle as [|a needle IH]; intros s; simpl.
  - split; [by exists s|done].
  - destruct s as [|b s].
    + split; [done|]. by intros [post Hpost].
    + rewrite andb_true_iff, Ascii.eqb_eq, IH. split.
      * intros [-> [post ->]]. by exists post.
      * intros [post [= -> ->]]. split; [done|]. by exists post.
Qed.

(** [contains] is the substring test. *)
Lemma contains_spec (needle haystack : string) :
  contains needle haystack = true
  <-> exists pre post, haystack = pre ++ needle ++ post.
Proof.
  induction haystack as [|c rest IH]; simpl.
  - rewrite starts_with_spec. split.
    + intros [post Hpost]. by exists "", post.
    + intros (pre & post & Heq). destruct pre; [by exists post|done].
  - rewrite orb_true_iff, starts_with_spec, IH. split.
    + intros [[post Hpost]|(pre & post & ->)].
      * by exists "", post.
      * by exists (String c pre), post.
    + intros (pre & post & Heq). destruct pre as [|c' pre]; simpl in Heq.
      * left. by exists post.
      * right. injection Heq as -> ->. by exists pre, post.
Qed.

(** X19.  Credentials and the choice between paper and live trading.  A
    client is built only when both keys are set and not empty, and with the
    keys of the environment.  It is a live-trading client only when
    ALPACA_BASE_URL is set, is not empty, and does not contain "paper-api"
    in any letter case; in particular an unset or empty URL gives paper
    trading. *)
Theorem live_trading_is_explicit (environ : gmap string string)
    (client : Client.t) :
  get_alpaca_client environ = Some client ->
  environ !! "ALPACA_API_KEY" = Some (Client.api_key client)
  /\ environ !! "ALPACA_SECRET_KEY" = Some (Client.secret_key client)
  /\ Client.api_key client <> "" /\ Client.secret_key client <> ""
  /\ (Client.paper client = false ->
      exists url,
        environ !! "ALPACA_BASE_URL" = Some url /\ url <> ""
        /\ ~ exists pre post, lower url = pre ++ "paper-api" ++ post).
Proof.
  unfold get_alpaca_client.
  destruct (environ !! "ALPACA_API_KEY") as [k|]; [|done].
  destruct (environ !! "ALPACA_SECRET_KEY") as [sk|]; [|done].
  destruct k as [|a k]; [done|]. destruct sk as [|b sk]; [done|]. simpl.
  intros [= <-]. simpl. do 4 (split; [done|]).
  destruct (environ !! "ALPACA_BASE_URL") as [url|]; simpl.
  - destruct url as [|c url]; [done|]. simpl nonempty. cbv iota.
    intros Hpaper. eexists. split; [done|]. split; [done|].
    rewrite <- contains_spec. by rewrite Hpaper.
  - by vm_compute.
Qed.

(** Without both keys there is no client. *)
Lemma get_alpaca_client_missing_key (environ : gmap string string) :
  default "" (environ !! "ALPACA_API_KEY") = ""
  \/ default "" (environ !! "ALPACA_SECRET_KEY") = "" ->
  get_alpaca_client environ = None.
Proof.
  unfold get_alpaca_client.
  destruct (environ !! "ALPACA_API_KEY") as [[|a k]|];
    destruct (environ !! "ALPACA_SECRET_KEY") as [[|b sk]|]; simpl;
    by intros [?|?].
Qed.
End credentials.

(** ** main: the calls made on the broker *)

Section main_calls.
Variable W : Type.
Variable float : string -> option Q.

Lemma submit_order_recording (b : Broker.t W) (w : W) (log : list Event)
    (request : MarketOrderRequest.t) :
  Broker.submit_order (recording b) (w, log) request
  = ((fst (Broker.submit_order b w request), log ++ [SubmitOrder request]),
     snd (Broker.submit_order b w request)).
Proof. simpl. by destruct (Broker.submit_order b w request). Qed.

Lemma execute_all_logged (b : Broker.t W) (orders : list Order.t)
    (w : W) (log : list Event) (n : nat) :
  execute_all (W * list Event) (Broker.submit_order (recording b)) orders
    ((w, log), n)
  = ((fst (execute_all W (Broker.submit_order b) orders (w, n)),
      log ++ (SubmitOrder <$> omap order_request orders)),
     snd (execute_all W (Broker.submit_order b) orders (w, n))).
Proof.
  revert w log n. induction orders as [|o l IH]; intros w log n.
  - simpl. by rewrite app_nil_r.
  - unfold execute_all in *. rewrite omap_cons_eq. cbn [fold_left].
    rewrite !execute_order_request.
    destruct (order_request o) as [request|].
    + rewrite submit_order_recording.
      destruct (Broker.submit_order b w request) as [w' ok]. cbn [fst snd].
      rewrite IH, fmap_cons, <- app_assoc. done.
    + by rewrite IH.
Qed.

Lemma run_orders_logged (b : Broker.t W) (orders : list Order.t)
    (w : W) (log : list Event) (dry_run : bool) :
  run_orders (W * list Event) (Broker.submit_order (recording b)) (w, log)
    orders dry_run
  = ((fst (run_orders W (Broker.submit_order b) w orders dry_run),
      log ++ (if dry_run then []
              else SubmitOrder <$> omap order_request (sorted_orders orders))),
     snd (run_orders W (Broker.submit_order b) w orders dry_run)).
Proof.
  unfold run_orders. destruct orders as [|o l].
  - destruct dry_run; simpl; by rewrite app_nil_r.
  - destruct dry_run; [by rewrite app_nil_r|]. apply execute_all_logged.
Qed.

Lemma cancel_order_recording (b : Broker.t W) (w : W) (log : list Event)
    (id : string) :
  Broker.cancel_order_by_id (recording b) (w, log) id
  = ((fst (Broker.cancel_order_by_id b w id), log ++ [CancelOrderById id]),
     snd (Broker.cancel_order_by_id b w id)).
Proof. simpl. by destruct (Broker.cancel_order_by_id b w id). Qed.

Lemma get_orders_recording (b : Broker.t W) (w : W) (log : list Event) :
  Broker.get_orders (recording b) (w, log)
  = ((fst (Broker.get_orders b w), log ++ [GetOrders]),
     snd (Broker.get_orders b w)).
Proof. simpl. by destruct (Broker.get_orders b w). Qed.

Lemma cancel_loop_logged (b : Broker.t W) (ids : list string) (w : W)
    (log : list Event) :
  fold_left (fun w id => fst (Broker.cancel_order_by_id (recording b) w id))
    ids (w, log)
  = (fold_left (fun w id => fst (Broker.cancel_order_by_id b w id)) ids w,
     log ++ (CancelOrderById <$> ids)).
Proof.
  revert w log. induction ids as [|id ids IH]; intros w log.
  - simpl. by rewrite app_nil_r.
  - cbn [fold_left]. rewrite cancel_order_recording. cbn [fst].
    by rewrite IH, fmap_cons, <- app_assoc.
Qed.

Lemma cancel_pending_orders_logged (b : Broker.t W) (w : W) (log : list Event) :
  cancel_pending_orders (W * list Event) (recording b) (w, log)
  = (cancel_pending_orders W b w,
     log ++ GetOrders
         :: (CancelOrderById <$> default [] (snd (Broker.get_orders b w)))).
Proof.
  unfold cancel_pending_orders. rewrite get_orders_recording.
  destruct (Broker.get_orders b w) as [w' [ids|]]; cbn [fst snd default].
  - by rewrite cancel_loop_logged, <- app_assoc.
  - done.
Qed.

Lemma get_clock_recording (b : Broker.t W) (w : W) (log : list Event) :
  Broker.get_clock (recording b) (w, log)
  = ((fst (Broker.get_clock b w), log ++ [GetClock]),
     snd (Broker.get_clock b w)).
Proof. simpl. by destruct (Broker.get_clock b w). Qed.

Lemma get_account_recording (b : Broker.t W) (w : W) (log : list Event) :
  Broker.get_account (recording b) (w, log)
  = ((fst (Broker.get_account b w), log ++ [GetAccount]),
     snd (Broker.get_account b w)).
Proof. simpl. by destruct (Broker.get_account b w). Qed.

Lemma get_all_positions_recording (b : Broker.t W) (w : W) (log : list Event) :
  Broker.get_all_positions (recording b) (w, log)
  = ((fst (Broker.get_all_positions b w), log ++ [GetAllPositions]),
     snd (Broker.get_all_positions b w)).
Proof. simpl. by destruct (Broker.get_all_positions b w). Qed.

(** The log of a run of [main] whose setup succeeds. *)
Lemma main_log_run (TradingClient : Client.t -> Broker.t W)
    (environ : gmap string string) (allocation_data : AllocationData.t)
    (w : W) (config : OrderConfig.t) (allocations : Allocations)
    (credentials : Client.t) :
  order_config float environ = Some config ->
  AllocationData.allocations allocation_data = Some allocations ->
  get_alpaca_client environ = Some credentials ->
  let b := TradingClient credentials in
  let w1 := fst (Broker.get_clock b w) in
  let ids := default [] (snd (Broker.get_orders b w1)) in
  let w2 := cancel_pending_orders W b w1 in
  let w3 := fst (Broker.get_account b w2) in
  main_log float TradingClient environ (Some allocation_data) w
  = [GetClock; GetOrders] ++ (CancelOrderById <$> ids)
    ++ match snd (Broker.get_account b w2) with
       | None => [GetAccount]
       | Some account_equity =>
           [GetAccount; GetAllPositions]
           ++ match numeric_allocations allocations with
              | None => []
              | Some allocations =>
                  if OrderConfig.dry_run config then []
                  else SubmitOrder <$> omap order_request
                         (sorted_orders
                            (calculate_orders
                               (get_current_positions
                                  (snd (Broker.get_all_positions b w3)))
                               (calculate_target_positions allocations
                                  account_equity (Some CRYPTO_TICKER_MAPPING))
                               (OrderConfig.min_order_size config)))
              end
       end.
Proof.
  intros Hconfig Hallocations Hcredentials b w1 ids w2 w3.
  unfold main_log, main. rewrite Hconfig, Hallocations, Hcredentials.
  fold b. unfold is_market_open, get_account_equity.
  rewrite get_clock_recording. fold w1. cbn [fst snd].
  destruct (Broker.get_clock b w) as [w1' clock] eqn:Hclock.
  cbn [fst] in w1. subst w1.
  rewrite cancel_pending_orders_logged. fold ids. fold w2.
  rewrite get_account_recording. subst w3.
  destruct (Broker.get_account b w2) as [w3 [account_equity|]];
    cbn [fst snd]; [|by rewrite <- app_assoc].
  rewrite get_all_positions_recording.
  destruct (Broker.get_all_positions b w3) as [w4 positions]. cbn [fst snd].
  destruct (numeric_allocations allocations) as [items|];
    [|by rewrite <- !app_assoc].
  rewrite run_orders_logged.
  destruct (run_orders W _ _ _ _) as [w5 n]. cbn [fst snd].
  by rewrite <- !app_assoc.
Qed.

End main_calls.

Section main_exit.
Variable W : Type.
Variable float : string -> option Q.


(** X20.  A failed setup contacts nobody.  When the allocation file cannot
    be loaded or lacks ['allocations'], when MIN_ORDER_SIZE or
    MAX_ORDER_SIZE is set to text that is not a number, or when a
    credential is missing, [main] ends without a single call on the broker
    (the state of the world is untouched, whatever the broker) and does not
    return normally. *)
Theorem setup_failure_contacts_nobody
    (TradingClient : Client.t -> Broker.t W)
    (environ : gmap string string) (allocation_data : option AllocationData.t)
    (w : W) :
  allocation_data ≫= AllocationData.allocations = None
  \/ order_config float environ = None
  \/ get_alpaca_client environ = None ->
  main W float TradingClient environ allocation_data w = (w, Exited 1)
  \/ main W float TradingClient environ allocation_data w = (w, Raised).
Proof.
  unfold main. intros Hfail.
  destruct allocation_data as [allocation_data|]; [|by left].
  simpl in Hfail.
  destruct (order_config float environ) as [config|]; [|by right].
  destruct (AllocationData.allocations allocation_data) as [allocations|];
    [|by left].
  destruct (get_alpaca_client environ) as [credentials|]; [|by left].
  by destruct Hfail as [?|[?|?]].
Qed.
End main_exit.

Section main_properties.
Variable W : Type.
Variable float : string -> option Q.
Variable TradingClient : Client.t -> Broker.t W.

Lemma order_request_side (o : Order.t) (request : MarketOrderRequest.t) :
  order_request o = Some request ->
  MarketOrderRequest.side request = Order.side o
  /\ (Order.side o = buy -> Order.qty o = None ->
      MarketOrderRequest.qty request = None).
Proof.
  unfold order_request, execute_order.
  destruct (Order.side o), (Order.qty o) as [q|]; simpl;
    repeat match goal with
           | |- context [if ?b then _ else _] => destruct b
           end; intros [= <-]; done.
Qed.



(** X22.  Every open order gets its cancellation attempt.  Whatever the
    broker answers, the block that cancels pending orders lists the open
    orders once and then calls the cancellation once for each listed id, in
    the listed order: a cancellation that fails does not stop the loop, and
    a failed listing cancels nothing. *)
Theorem every_pending_order_attempted (b : Broker.t W) (w : W) :
  snd (cancel_pending_orders (W * list Event) (recording b) (w, []))
  = GetOrders
    :: (CancelOrderById <$> default [] (snd (Broker.get_orders b w))).
Proof. by rewrite cancel_pending_orders_logged. Qed.

Lemma order_config_insert_dry_run (environ : gmap string string) (v : string) :
  order_config float (<["DRY_RUN"%string := v]> environ)
  = (fun c =>
       OrderConfig.mk
         (if nonempty v
          then bool_decide (lower v ∈ ["true"; "1"; "yes"]%string)
          else false)
         (OrderConfig.min_order_size c) (OrderConfig.max_order_size c))
    <$> order_config float environ.
Proof.
  unfold order_config. rewrite lookup_insert_eq, !lookup_insert_ne by done.
  destruct (match environ !! "MIN_ORDER_SIZE"%string with
            | Some _ => _ | None => _ end); [|done]. simpl.
  destruct (match environ !! "MAX_ORDER_SIZE"%string with
            | Some _ => _ | None => _ end); done.
Qed.

Lemma get_alpaca_client_insert_dry_run (environ : gmap string string)
    (v : string) :
  get_alpaca_client (<["DRY_RUN"%string := v]> environ)
  = get_alpaca_client environ.
Proof. unfold get_alpaca_client. by rewrite !lookup_insert_ne by done. Qed.

Lemma filter_not_submit_cancels (ids : list string) :
  filter (fun e => is_submit e = false) (CancelOrderById <$> ids)
  = CancelOrderById <$> ids.
Proof.
  induction ids as [|id ids IH]; [done|].
  rewrite fmap_cons, filter_cons_True by done. by rewrite IH.
Qed.

Lemma filter_not_submit_submits (requests : list MarketOrderRequest.t) :
  filter (fun e => is_submit e = false) (SubmitOrder <$> requests) = [].
Proof.
  induction requests as [|r requests IH]; [done|].
  by rewrite fmap_cons, filter_cons_False by done.
Qed.

Lemma main_log_setup_failure (environ : gmap string string)
    (allocation_data : option AllocationData.t) (w : W) :
  allocation_data ≫= AllocationData.allocations = None
  \/ order_config float environ = None
  \/ get_alpaca_client environ = None ->
  main_log float TradingClient environ allocation_data w = [].
Proof.
  unfold main_log, main. intros Hfail.
  destruct allocation_data as [allocation_data|]; [|done]. simpl in Hfail.
  destruct (order_config float environ) as [config|]; [|done].
  destruct (AllocationData.allocations allocation_data) as [allocations|];
    [|done].
  destruct (get_alpaca_client environ) as [credentials|]; [|done].
  by destruct Hfail as [?|[?|?]].
Qed.

(** X23.  A dry run differs from a live run by the submissions only.  With
    DRY_RUN set to "true", [main] makes exactly the calls of the run with
    DRY_RUN set to "false", minus the order submissions: it still lists and
    cancels the open orders of the account. *)
Theorem dry_run_skips_only_submissions (environ : gmap string string)
    (allocation_data : option AllocationData.t) (w : W) :
  main_log float TradingClient (<["DRY_RUN"%string := "true"%string]> environ)
    allocation_data w
  = filter (fun e => is_submit e = false)
      (main_log float TradingClient
         (<["DRY_RUN"%string := "false"%string]> environ) allocation_data w).
Proof.
  pose proof (order_config_insert_dry_run environ "true") as Hdry.
  pose proof (order_config_insert_dry_run environ "false") as Hlive.
  pose proof (get_alpaca_client_insert_dry_run environ "true") as Hcdry.
  pose proof (get_alpaca_client_insert_dry_run environ "false") as Hclive.
  destruct (allocation_data ≫= AllocationData.allocations)
    as [allocations|] eqn:Hallocations;
    [|by rewrite !main_log_setup_failure by by left].
  destruct (order_config float environ) as [config|]; simpl in Hdry, Hlive;
    [|by rewrite !main_log_setup_failure by (right; by left)].
  destruct (get_alpaca_client environ) as [credentials|];
    [|by rewrite !main_log_setup_failure by (right; by right)].
  destruct allocation_data as [allocation_data|]; [|done].
  simpl in Hallocations.
  rewrite (main_log_run _ float _ _ _ _ _ _ _ Hdry Hallocations Hcdry).
  rewrite (main_log_run _ float _ _ _ _ _ _ _ Hlive Hallocations Hclive).
  cbn [OrderConfig.dry_run OrderConfig.min_order_size].
  rewrite !filter_app, filter_not_submit_cancels.
  destruct (Broker.get_account _ _) as [w3 [account_equity|]]; cbn [fst snd].
  - destruct (numeric_allocations allocations) as [items|]; [|done].
    by rewrite filter_app, filter_not_submit_submits.
  - done.
Qed.

(** X24.  When the position query yields the empty dict (no holdings, a call
    that raised, or one field that did not convert), [main] goes on with no
    positions: every request it submits is a buy by notional, and nothing
    held in the account is sold. *)
Theorem no_positions_main_only_buys (environ : gmap string string)
    (allocation_data : option AllocationData.t) (w : W)
    (request : MarketOrderRequest.t) :
  (forall credentials w',
     get_current_positions
       (snd (Broker.get_all_positions (TradingClient credentials) w')) = ∅) ->
  SubmitOrder request
    ∈ main_log float TradingClient environ allocation_data w ->
  MarketOrderRequest.side request = buy
  /\ MarketOrderRequest.qty request = None.
Proof.
  intros Hempty.
  destruct (allocation_data ≫= AllocationData.allocations)
    as [allocations|] eqn:Hallocations;
    [|rewrite main_log_setup_failure by (by left); by intros ?%elem_of_nil].
  destruct (order_config float environ) as [config|] eqn:Hconfig;
    [|rewrite main_log_setup_failure by (right; by left);
      by intros ?%elem_of_nil].
  destruct (get_alpaca_client environ) as [credentials|] eqn:Hcredentials;
    [|rewrite main_log_setup_failure by (right; by right);
      by intros ?%elem_of_nil].
  destruct allocation_data as [allocation_data|]; [|done].
  simpl in Hallocations.
  rewrite (main_log_run _ float _ _ _ _ _ _ _ Hconfig Hallocations Hcredentials).
  rewrite !elem_of_app, list_elem_of_fmap.
  intros [Hin|[(id & Hid & _)|Hin]]; [|done|].
  { apply elem_of_cons in Hin as [?|Hin]; [done|].
    apply elem_of_cons in Hin as [?|Hin]; [done|]. by apply elem_of_nil in Hin. }
  destruct (Broker.get_account _ _) as [w3 [account_equity|]];
    cbn [fst snd] in Hin.
  - rewrite Hempty in Hin. apply elem_of_app in Hin as [Hin|Hin].
    { apply elem_of_cons in Hin as [?|Hin]; [done|].
      apply elem_of_cons in Hin as [?|Hin]; [done|].
      by apply elem_of_nil in Hin. }
    destruct (numeric_allocations allocations) as [items|];
      [|by apply elem_of_nil in Hin].
    destruct (OrderConfig.dry_run config); [by apply elem_of_nil in Hin|].
    apply list_elem_of_fmap in Hin as (r & [= <-] & Hr).
    apply list_elem_of_omap in Hr as (o & Ho & Hreq).
    rewrite sorted_orders_perm in Ho.
    apply orders_without_positions in Ho as (Ho & _).
    apply order_request_side in Hreq as [Hside Hqty].
    rewrite Ho in Hside, Hqty. simpl in Hside, Hqty. split; [done|].
    by apply Hqty.
  - apply elem_of_cons in Hin as [?|Hin]; [done|]. by apply elem_of_nil in Hin.
Qed.
End main_properties.

(** ** Concrete runs of the further properties *)

Section further_runs.
Local Open Scope Q_scope.
Local Open Scope string_scope.

Lemma sample_sell_computed :
  sample_sell ∈ calculate_orders sample_positions sample_targets 10.
Proof. apply elem_of_calculate_orders. by vm_compute. Qed.

Lemma sample_buy_computed :
  sample_buy ∈ calculate_orders sample_positions sample_targets 10.
Proof. apply elem_of_calculate_orders. by vm_compute. Qed.

Lemma calculate_orders_enumeration_witness :
  let enumeration := ["TSLA"; "MSFT"; "BTC/USD"; "AAPL"] in
  NoDup enumeration
  /\ calculate_orders_on sample_positions sample_targets 10 enumeration
     ≡ₚ calculate_orders sample_positions sample_targets 10.
Proof.
  assert (NoDup ["TSLA"; "MSFT"; "BTC/USD"; "AAPL"]) as Hnd
    by (apply (bool_decide_unpack _); by vm_compute).
  split; [exact Hnd|].
  apply (calculate_orders_enumeration sample_positions sample_targets 10 _ Hnd).
  intros s. unfold all_symbols, sample_positions, sample_targets.
  rewrite !dom_insert_L, !dom_empty_L.
  rewrite !elem_of_union, !elem_of_singleton, elem_of_empty.
  rewrite !elem_of_cons, elem_of_nil. tauto.
Defined.

Lemma instruction_shape_witness :
  sample_sell ∈ calculate_orders sample_positions sample_targets 10
  /\ Order.symbol sample_sell ∈ all_symbols sample_positions sample_targets.
Proof.
  split; [exact sample_sell_computed|].
  exact (proj1 (instruction_shape sample_positions sample_targets 10
                  sample_sell sample_sell_computed)).
Defined.

Lemma instruction_direction_witness :
  sample_buy ∈ calculate_orders sample_positions sample_targets 10
  /\ current_value sample_positions "AAPL" < target_value sample_targets "AAPL".
Proof.
  split; [exact sample_buy_computed|].
  exact (instruction_direction sample_positions sample_targets 10
           sample_buy sample_buy_computed).
Defined.

Lemma sell_quantity_bound_witness :
  sample_sell ∈ calculate_orders sample_positions sample_targets 10
  /\ exists q,
      Order.qty sample_sell = Some q
      /\ q <= current_qty sample_positions "TSLA" + (1 # 2000).
Proof.
  split; [exact sample_sell_computed|].
  destruct (sell_quantity_bound sample_positions sample_targets 10
              sample_sell sample_sell_computed eq_refl) as (q & Hq & Hle & _).
  by exists q.
Defined.

Lemma carried_decimal_places_witness :
  sample_buy ∈ calculate_orders sample_positions sample_targets 10
  /\ forall n, Order.notional sample_buy = Some n -> decimal_places_le 2 n.
Proof.
  split; [exact sample_buy_computed|].
  exact (proj1 (carried_decimal_places sample_positions sample_targets 10
                  sample_buy sample_buy_computed)).
Defined.

Lemma min_order_size_monotone_witness :
  10 <= 600
  /\ calculate_orders sample_positions sample_targets 600
     `sublist_of` calculate_orders sample_positions sample_targets 10.
Proof.
  assert (10 <= 600) as Hle by (unfold Qle; simpl; lia).
  split; [exact Hle|].
  exact (min_order_size_monotone sample_positions sample_targets 10 600 Hle).
Defined.

Lemma computed_order_submitted_witness :
  sample_sell ∈ calculate_orders sample_positions sample_targets 10
  /\ exists request,
      execute_order _ recording_submit [] sample_sell
      = recording_submit [] request
      /\ MarketOrderRequest.symbol request = "TSLA".
Proof.
  split; [exact sample_sell_computed|].
  destruct (computed_order_submitted _ recording_submit
              sample_positions sample_targets 10 [] sample_sell
              sample_sell_computed)
    as [(request & Hex & Hsym & _)|(_ & Hside & _)]; [|done].
  by exists request.
Defined.

Lemma positions_keys_witness :
  let positions :=
    [Position.mk "SOLUSD" (Some 100) (Some 1);
     Position.mk "SOL/USD" (Some 50) (Some 0.5);
     Position.mk "AAPL" (Some 1000) (Some 5)] in
  Forall converted positions
  /\ dom (get_current_positions (Some positions))
     = list_to_set ["SOL/USD"; "SOL/USD"; "AAPL"].
Proof.
  assert (Forall converted
            [Position.mk "SOLUSD" (Some 100) (Some 1);
             Position.mk "SOL/USD" (Some 50) (Some 0.5);
             Position.mk "AAPL" (Some 1000) (Some 5)]) as Hall
    by (repeat constructor; by eexists).
  split; [exact Hall|]. exact (positions_keys _ Hall).
Defined.

Lemma positions_lost_on_error_witness :
  let positions :=
    [Position.mk "AAPL" (Some 1000) (Some 5);
     Position.mk "TSLA" None (Some 4)] in
  ~ Forall converted positions
  /\ get_current_positions (Some positions) = ∅.
Proof.
  assert (~ Forall converted
              [Position.mk "AAPL" (Some 1000) (Some 5);
               Position.mk "TSLA" None (Some 4)]) as Hbad.
  { intros Hall. apply Forall_cons in Hall as [_ Hall].
    apply Forall_cons in Hall as [[[? Hmv] _] _]. done. }
  split; [exact Hbad|]. exact (positions_lost_on_error _ Hbad).
Defined.

Lemma position_keys_normalized_witness :
  let positions :=
    Some [Position.mk "solusd" (Some 100) (Some 1);
          Position.mk "SOL-USD" (Some 50) (Some 0.5)] in
  "SOL/USD" ∈ dom (get_current_positions positions)
  /\ normalize_symbol "SOL/USD" = "SOL/USD".
Proof.
  assert ("SOL/USD"
          ∈ dom (get_current_positions
                   (Some [Position.mk "solusd" (Some 100) (Some 1);
                          Position.mk "SOL-USD" (Some 50) (Some 0.5)])))
    as Hin.
  { apply elem_of_dom.
    exists (PositionData.mk (Some (100 + 50)) (Some (1 + 0.5))).
    by vm_compute. }
  split; [exact Hin|]. exact (position_keys_normalized _ _ Hin).
Defined.

Lemma target_total_witness :
  let allocations := [("AAPL", 60); ("BTC-USD", 40)] in
  let crypto_mapping := Some CRYPTO_TICKER_MAPPING in
  NoDup (mapped_symbol crypto_mapping <$> allocations.*1)
  /\ Qsum (map_to_list
             (calculate_target_positions allocations 2500 crypto_mapping)).*2
     == Qsum allocations.*2 / 100 * 2500.
Proof.
  assert (NoDup (mapped_symbol (Some CRYPTO_TICKER_MAPPING)
                 <$> [("AAPL", 60); ("BTC-USD", 40)].*1)) as Hnd
    by (apply (bool_decide_unpack _); by vm_compute).
  split; [exact Hnd|].
  exact (target_total 2500 (Some CRYPTO_TICKER_MAPPING) _ Hnd).
Defined.

Lemma no_positions_only_notional_buys_witness :
  let tgt : gmap string Q := {["MSFT" := 200]} in
  let o := Order.mk "MSFT" buy None (Some (round (200 - 0) 2)) None in
  o ∈ calculate_orders ∅ tgt 10 /\ 10 <= target_value tgt "MSFT".
Proof.
  assert (Order.mk "MSFT" buy None (Some (round (200 - 0) 2)) None
          ∈ calculate_orders ∅ ({["MSFT" := 200]} : gmap string Q) 10) as Hin
    by (apply elem_of_calculate_orders; by vm_compute).
  split; [exact Hin|].
  exact (proj2 (proj2 (no_positions_only_notional_buys _ _ _ Hin))).
Defined.

Lemma live_trading_is_explicit_witness :
  get_alpaca_client sample_environ = Some (Client.mk "key" "secret" true)
  /\ sample_environ !! "ALPACA_API_KEY" = Some "key".
Proof.
  assert (get_alpaca_client sample_environ
          = Some (Client.mk "key" "secret" true)) as Hclient by by vm_compute.
  split; [exact Hclient|].
  exact (proj1 (live_trading_is_explicit _ _ Hclient)).
Defined.

Lemma setup_failure_contacts_nobody_witness :
  get_alpaca_client ∅ = None
  /\ (main unit (fun _ => None) (fun _ => blind_broker) ∅
        (Some sample_allocation) tt = (tt, Exited 1)
      \/ main unit (fun _ => None) (fun _ => blind_broker) ∅
           (Some sample_allocation) tt = (tt, Raised)).
Proof.
  assert (get_alpaca_client ∅ = None) as Hnone by by vm_compute.
  split; [exact Hnone|].
  apply setup_failure_contacts_nobody. right. right. exact Hnone.
Defined.

Lemma no_positions_main_only_buys_witness :
  SubmitOrder sample_request
    ∈ main_log (fun _ => None) (fun _ => blind_broker) sample_environ
        (Some sample_allocation) tt
  /\ MarketOrderRequest.side sample_request = buy
  /\ MarketOrderRequest.qty sample_request = None.
Proof.
  assert (SubmitOrder sample_request
            ∈ main_log (fun _ => None) (fun _ => blind_broker) sample_environ
                (Some sample_allocation) tt) as Hin.
  { assert (main_log (fun _ => None) (fun _ => blind_broker) sample_environ
              (Some sample_allocation) tt
            = [GetClock; GetOrders; CancelOrderById "order-1"; GetAccount;
               GetAllPositions; SubmitOrder sample_request]) as ->
      by by vm_compute.
    do 5 apply list_elem_of_further. apply list_elem_of_here. }
  split; [exact Hin|].
  apply (no_positions_main_only_buys unit (fun _ => None)
           (fun _ => blind_broker) sample_environ (Some sample_allocation) tt
           sample_request); [done|exact Hin].
Defined.

(** A run on [{"allocations": null}]: the open order is cancelled, the
    account and the positions are read, and only then does
    [calculate_target_positions] raise. *)
Example main_raises_after_the_queries :
  main (unit * list Event) (fun _ => None) (fun _ => recording blind_broker)
    sample_environ (Some (AllocationData.mk (Some NotADict))) (tt, [])
  = ((tt, [GetClock; GetOrders; CancelOrderById "order-1"; GetAccount;
           GetAllPositions]),
     Raised).
Proof. by vm_compute. Qed.
End further_runs.
